(** * MECHASENSE: the diagnostic core

    A shallow embedding of the three pieces of MECHASENSE that compute
    something: the formula-based health score
    ([src/lib/calculateHealthScore.ts]), the certainty-factor expert system
    of the AI Center page ([src/app/ai-center/page.tsx]) and the
    [POST /api/ml/predict] route handler.

    JavaScript numbers are IEEE 754 binary64 values, so they are embedded as
    Rocq's primitive [float]s: literals such as [2.8] denote the nearest
    double on both sides, and the arithmetic and the comparisons are the
    hardware ones.  Integer-valued quantities that JavaScript keeps exact
    (array lengths, sums of the small integer weights) are kept in [Z]. *)

From Stdlib Require Import ZArith List Bool String Floats Lia Sorted.
From stdpp Require Import gmap pretty.
Import ListNotations.

Set Warnings "-inexact-float".

Notation "x >? y" := (PrimFloat.ltb y x) (at level 70, no associativity) : float_scope.
Notation "x >=? y" := (PrimFloat.leb y x) (at level 70, no associativity) : float_scope.

(** ** JavaScript numbers and the built-ins the sources call *)

Module JS.
Local Open Scope float_scope.

Definition number := float.

(** [ToBoolean] on a number: [+0], [-0] and [NaN] are falsy. *)
Definition truthy (x : number) : bool := negb (is_zero x || is_nan x).

(** [ToBoolean] on a [number | undefined]: [undefined] is falsy as well. *)
Definition truthy_opt (a : option number) : bool :=
  match a with
  | Some x => truthy x
  | None => false
  end.

(** [a || b] on operands of type [number | undefined]. *)
Definition or_else (a b : option number) : option number :=
  if truthy_opt a then a else b.

(** [a || d] where [d] is a number literal. *)
Definition or_default (a : option number) (d : number) : number :=
  match a with
  | Some x => if truthy x then x else d
  | None => d
  end.

(** The double nearest to an integer (exact below [2^53]). *)
Definition of_Z (z : Z) : number := SF2Prim (binary_normalize prec emax z 0 false).

Definition is_pos_zero (x : number) : bool :=
  match Prim2SF x with S754_zero false => true | _ => false end.

Definition is_neg_zero (x : number) : bool :=
  match Prim2SF x with S754_zero true => true | _ => false end.

(** [Math.max(...values)] as ECMA-262 runs it: start from [-Infinity], a
    [NaN] argument makes the result [NaN], [+0] beats [-0]. *)
Fixpoint Math_max_from (highest : number) (values : list number) : number :=
  match values with
  | [] => highest
  | x :: rest =>
      if is_nan x then nan
      else if is_pos_zero x && is_neg_zero highest then Math_max_from x rest
      else if x >? highest then Math_max_from x rest
      else Math_max_from highest rest
  end.

Definition Math_max (values : list number) : number :=
  Math_max_from neg_infinity values.

(** [Math.min(...values)]: start from [+Infinity], [-0] beats [+0]. *)
Fixpoint Math_min_from (lowest : number) (values : list number) : number :=
  match values with
  | [] => lowest
  | x :: rest =>
      if is_nan x then nan
      else if is_neg_zero x && is_pos_zero lowest then Math_min_from x rest
      else if x <? lowest then Math_min_from x rest
      else Math_min_from lowest rest
  end.

Definition Math_min (values : list number) : number :=
  Math_min_from infinity values.

Definition Math_abs (x : number) : number := abs x.

(** [Math.round(x)]: the integer nearest to [x], ties towards [+Infinity];
    a result of zero keeps the sign of [x].  A finite double with a
    non-negative exponent is already an integer; otherwise [x = ±m / 2^k]
    and the result is [floor (x + 1/2)], computed on integers. *)
Definition Math_round (x : number) : number :=
  match Prim2SF x with
  | S754_finite s m e =>
      if (0 <=? e)%Z then x
      else
        let k := (- e)%Z in
        let n := ((cond_Zopp s (Zpos m) + 2 ^ (k - 1)) / 2 ^ k)%Z in
        if (n =? 0)%Z then (if s then neg_zero else zero) else of_Z n
  | _ => x
  end.

(** [Math.floor(x)] on the same representation. *)
Definition Math_floor (x : number) : number :=
  match Prim2SF x with
  | S754_finite s m e =>
      if (0 <=? e)%Z then x
      else
        let n := (cond_Zopp s (Zpos m) / 2 ^ (- e))%Z in
        if (n =? 0)%Z then (if s then neg_zero else zero) else of_Z n
  | _ => x
  end.

(** [Number(x.toFixed(fractionDigits))].  [toFixed] picks the integer [n]
    for which [n / 10^f] is closest to [|x|] (the larger one on a tie) and
    prints it as a decimal; [Number] reads the decimal back as the nearest
    double, which is the correctly rounded quotient [n / 10^f].  From
    [1e21] on [toFixed] prints the number itself. *)
Definition toFixed_Number (x : number) (fractionDigits : Z) : number :=
  match Prim2SF x with
  | S754_finite s m e =>
      if abs x >=? 1e21 then x
      else
        let num := (Zpos m * 10 ^ fractionDigits * 2 ^ Z.max e 0)%Z in
        let den := (2 ^ Z.max (- e) 0)%Z in
        match ((2 * num + den) / (2 * den))%Z with
        | Zpos n =>
            SF2Prim (SF64div (S754_finite s n 0)
                             (S754_finite false (Z.to_pos (10 ^ fractionDigits)) 0))
        | _ => if s then neg_zero else zero
        end
  | S754_zero _ => zero
  | _ => x
  end.

(** [array.sort(compareFn)] is a stable sort: an element moves in front
    of another only when [compareFn] says so with a positive number.
    Insertion from the left is the reference behaviour of every stable
    sort on a consistent comparator. *)
Fixpoint sort_insert {A} (compareFn : A -> A -> number) (x : A) (sorted : list A) : list A :=
  match sorted with
  | [] => [x]
  | y :: rest =>
      if compareFn y x >? 0 then x :: y :: rest
      else y :: sort_insert compareFn x rest
  end.

Definition Array_sort {A} (compareFn : A -> A -> number) (array : list A) : list A :=
  fold_left (fun sorted x => sort_insert compareFn x sorted) array [].

(** *** The order on doubles

    The comparisons of [float] are specified through [SFcompare]; the
    facts below are what the proofs about thresholds, [Math.max] and
    [Math.min] need. *)

Ltac sf_cmp :=
  repeat match goal with
  | H : context [Z.compare ?a ?b] |- _ => destruct (Z.compare_spec a b)
  | H : context [Pos.compare_cont Eq ?a ?b] |- _ =>
      change (Pos.compare_cont Eq a b) with (Pos.compare a b) in H;
      destruct (Pos.compare_spec a b)
  | |- context [Z.compare ?a ?b] => destruct (Z.compare_spec a b)
  | |- context [Pos.compare_cont Eq ?a ?b] =>
      change (Pos.compare_cont Eq a b) with (Pos.compare a b);
      destruct (Pos.compare_spec a b)
  end; simpl in *; try congruence; try lia.

Ltac sf_cases :=
  unfold SFltb, SFleb, SFeqb;
  repeat match goal with x : spec_float |- _ => destruct x as [[|]|[|]| |[|] ? ?] end;
  simpl; try congruence; intros; sf_cmp.

Lemma SFltb_leb_trans a b c :
  SFltb a b = true -> SFleb b c = true -> SFltb a c = true.
Proof. sf_cases. Qed.

Lemma SFleb_ltb_trans a b c :
  SFleb a b = true -> SFltb b c = true -> SFltb a c = true.
Proof. sf_cases. Qed.

Lemma SFleb_trans a b c :
  SFleb a b = true -> SFleb b c = true -> SFleb a c = true.
Proof. sf_cases. Qed.

Lemma SFltb_leb a b : SFltb a b = true -> SFleb a b = true.
Proof. sf_cases. Qed.

Lemma SFleb_refl a : SFeqb a a = true -> SFleb a a = true.
Proof. sf_cases. Qed.

Lemma SFnot_ltb_leb a b :
  SFeqb a a = true -> SFeqb b b = true -> SFltb a b = false -> SFleb b a = true.
Proof. sf_cases. Qed.

Lemma SFleb_not_ltb a b : SFleb a b = true -> SFltb b a = false.
Proof. sf_cases. Qed.

Lemma SFnot_leb_ltb a b :
  SFeqb a a = true -> SFeqb b b = true -> SFleb a b = false -> SFltb b a = true.
Proof. sf_cases. Qed.

Lemma SFleb_antisym_ltb a b x :
  SFleb a b = true -> SFleb b a = true -> SFltb x a = SFltb x b.
Proof. sf_cases. Qed.

Lemma SFleb_not_nan a b : SFleb a b = true -> SFeqb a a = true /\ SFeqb b b = true.
Proof. split; revert H; sf_cases. Qed.

Lemma SFeqb_zero a b z :
  SFeqb a (S754_zero z) = true -> SFltb b a = SFltb b (S754_zero false).
Proof. sf_cases. Qed.

Lemma SFnan_ltb a b : SFeqb a a = false -> SFltb b a = false /\ SFltb a b = false.
Proof. split; revert H; sf_cases. Qed.

Lemma SFleb_neg_infinity a :
  SFleb a (S754_infinity true) = true -> a = S754_infinity true.
Proof. sf_cases. Qed.

Lemma SFleb_infinity a :
  SFleb (S754_infinity false) a = true -> a = S754_infinity false.
Proof. sf_cases. Qed.

(** The same facts on [float], through the axioms of [FloatAxioms]. *)

Ltac to_sf :=
  unfold truthy, is_zero, is_nan in *;
  repeat rewrite ?negb_false_iff, ?negb_true_iff, ?orb_false_iff, ?orb_true_iff in *;
  rewrite ?FloatAxioms.ltb_spec, ?FloatAxioms.leb_spec, ?FloatAxioms.eqb_spec in *.

Lemma ltb_leb_trans a b c : (a <? b) = true -> (b <=? c) = true -> (a <? c) = true.
Proof. to_sf. apply SFltb_leb_trans. Qed.

Lemma leb_ltb_trans a b c : (a <=? b) = true -> (b <? c) = true -> (a <? c) = true.
Proof. to_sf. apply SFleb_ltb_trans. Qed.

Lemma leb_trans a b c : (a <=? b) = true -> (b <=? c) = true -> (a <=? c) = true.
Proof. to_sf. apply SFleb_trans. Qed.

Lemma ltb_leb a b : (a <? b) = true -> (a <=? b) = true.
Proof. to_sf. apply SFltb_leb. Qed.

Lemma leb_refl a : is_nan a = false -> (a <=? a) = true.
Proof. to_sf. apply SFleb_refl. Qed.

Lemma not_ltb_leb a b :
  is_nan a = false -> is_nan b = false -> (a <? b) = false -> (b <=? a) = true.
Proof. to_sf. apply SFnot_ltb_leb. Qed.

Lemma leb_not_ltb a b : (a <=? b) = true -> (b <? a) = false.
Proof. to_sf. apply SFleb_not_ltb. Qed.

Lemma not_leb_ltb a b :
  is_nan a = false -> is_nan b = false -> (a <=? b) = false -> (b <? a) = true.
Proof. to_sf. apply SFnot_leb_ltb. Qed.

Lemma leb_antisym_gt a b x :
  (a <=? b) = true -> (b <=? a) = true -> (a >? x) = (b >? x).
Proof. to_sf. apply SFleb_antisym_ltb. Qed.

Lemma leb_not_nan a b : (a <=? b) = true -> is_nan a = false /\ is_nan b = false.
Proof. to_sf. apply SFleb_not_nan. Qed.

(** A falsy number is never above a non-negative threshold. *)
Lemma falsy_not_gt x c : truthy x = false -> (0 >? c) = false -> (x >? c) = false.
Proof.
  intros Hx Hc. to_sf. destruct Hx as [Hx | Hx].
  - change (Prim2SF zero) with (S754_zero false) in Hx.
    rewrite (SFeqb_zero _ _ _ Hx). exact Hc.
  - exact (proj1 (SFnan_ltb _ (Prim2SF c) Hx)).
Qed.

Lemma pos_zero_ge_neg_zero x h :
  is_pos_zero x && is_neg_zero h = true -> (h <=? x) = true.
Proof.
  unfold is_pos_zero, is_neg_zero. rewrite FloatAxioms.leb_spec.
  destruct (Prim2SF x) as [[|]|[|]| |[|] ? ?], (Prim2SF h) as [[|]|[|]| |[|] ? ?];
    simpl; intros H; try discriminate H; reflexivity.
Qed.

Lemma neg_zero_le_pos_zero x l :
  is_neg_zero x && is_pos_zero l = true -> (x <=? l) = true.
Proof.
  unfold is_pos_zero, is_neg_zero. rewrite FloatAxioms.leb_spec.
  destruct (Prim2SF x) as [[|]|[|]| |[|] ? ?], (Prim2SF l) as [[|]|[|]| |[|] ? ?];
    simpl; intros H; try discriminate H; reflexivity.
Qed.

Lemma leb_neg_infinity x : (x <=? neg_infinity) = true -> x = neg_infinity.
Proof.
  rewrite FloatAxioms.leb_spec. change (Prim2SF neg_infinity) with (S754_infinity true).
  intros H. apply Prim2SF_inj. exact (SFleb_neg_infinity _ H).
Qed.

Lemma infinity_leb x : (infinity <=? x) = true -> x = infinity.
Proof.
  rewrite FloatAxioms.leb_spec. change (Prim2SF infinity) with (S754_infinity false).
  intros H. apply Prim2SF_inj. exact (SFleb_infinity _ H).
Qed.

Lemma ltb_not_leb a b : (a <? b) = true -> (b <=? a) = false.
Proof. rewrite FloatAxioms.ltb_spec, FloatAxioms.leb_spec. generalize (Prim2SF a) (Prim2SF b). intros x y. sf_cases. Qed.

(** [NaN] compares false with everything and spreads through the
    arithmetic of a deviation. *)
Lemma SFeqb_nan a : SFeqb a a = false -> a = S754_nan.
Proof.
  unfold SFeqb. destruct a as [[|]|[|]| |[|] m e]; simpl; try congruence;
    rewrite Z.compare_refl; change (Pos.compare_cont Eq m m) with (Pos.compare m m);
    rewrite Pos.compare_refl; simpl; congruence.
Qed.

Lemma is_nan_Prim2SF x : is_nan x = true <-> Prim2SF x = S754_nan.
Proof.
  unfold is_nan. rewrite negb_true_iff, FloatAxioms.eqb_spec. split.
  - apply SFeqb_nan.
  - now intros ->.
Qed.

Lemma nan_not_gt x c : is_nan x = true -> (x >? c) = false.
Proof. rewrite is_nan_Prim2SF, FloatAxioms.ltb_spec. intros ->. now destruct (Prim2SF c). Qed.

Lemma nan_not_lt x c : is_nan x = true -> (x <? c) = false.
Proof. rewrite is_nan_Prim2SF, FloatAxioms.ltb_spec. now intros ->. Qed.

Lemma nan_deviation x nominal :
  is_nan x = true -> is_nan (Math_abs (x - nominal) / nominal) = true.
Proof.
  rewrite !is_nan_Prim2SF. intros H. unfold Math_abs.
  rewrite div_spec, abs_spec, sub_spec, H. reflexivity.
Qed.

(** *** [Math.max] and [Math.min] return the greatest and the least argument *)

Definition no_nan (values : list number) : Prop :=
  Forall (fun v => is_nan v = false) values.

Lemma Math_max_from_spec values : forall highest,
  is_nan highest = false -> no_nan values ->
  let m := Math_max_from highest values in
  (m = highest \/ In m values) /\ (highest <=? m) = true /\
  Forall (fun v => (v <=? m) = true) values.
Proof.
  induction values as [|x rest IH]; intros h Hh Hv; simpl.
  - repeat split; [now left | now apply leb_refl | constructor].
  - inversion_clear Hv as [|? ? Hx Hrest]. rewrite Hx.
    destruct (is_pos_zero x && is_neg_zero h) eqn:Hz;
      [|destruct (x >? h) eqn:Hlt].
    + destruct (IH x Hx Hrest) as (Hin & Hle & Hall).
      repeat split.
      * right. destruct Hin as [-> | Hin]; [now left | now right].
      * eapply leb_trans; [apply pos_zero_ge_neg_zero, Hz | exact Hle].
      * constructor; assumption.
    + destruct (IH x Hx Hrest) as (Hin & Hle & Hall).
      repeat split.
      * right. destruct Hin as [-> | Hin]; [now left | now right].
      * eapply leb_trans; [apply ltb_leb, Hlt | exact Hle].
      * constructor; assumption.
    + destruct (IH h Hh Hrest) as (Hin & Hle & Hall).
      repeat split.
      * destruct Hin as [Hin | Hin]; [now left | right; now right].
      * exact Hle.
      * constructor; [|assumption].
        eapply leb_trans; [exact (not_ltb_leb h x Hh Hx Hlt) | exact Hle].
Qed.

Lemma Math_min_from_spec values : forall lowest,
  is_nan lowest = false -> no_nan values ->
  let m := Math_min_from lowest values in
  (m = lowest \/ In m values) /\ (m <=? lowest) = true /\
  Forall (fun v => (m <=? v) = true) values.
Proof.
  induction values as [|x rest IH]; intros l Hl Hv; simpl.
  - repeat split; [now left | now apply leb_refl | constructor].
  - inversion_clear Hv as [|? ? Hx Hrest]. rewrite Hx.
    destruct (is_neg_zero x && is_pos_zero l) eqn:Hz;
      [|destruct (x <? l) eqn:Hlt].
    + destruct (IH x Hx Hrest) as (Hin & Hle & Hall).
      repeat split.
      * right. destruct Hin as [-> | Hin]; [now left | now right].
      * eapply leb_trans; [exact Hle | apply neg_zero_le_pos_zero, Hz].
      * constructor; assumption.
    + destruct (IH x Hx Hrest) as (Hin & Hle & Hall).
      repeat split.
      * right. destruct Hin as [-> | Hin]; [now left | now right].
      * eapply leb_trans; [exact Hle | apply ltb_leb, Hlt].
      * constructor; assumption.
    + destruct (IH l Hl Hrest) as (Hin & Hle & Hall).
      repeat split.
      * destruct Hin as [Hin | Hin]; [now left | right; now right].
      * exact Hle.
      * constructor; [|assumption].
        eapply leb_trans; [exact Hle | exact (not_ltb_leb x l Hx Hl Hlt)].
Qed.

Lemma Math_max_greatest values :
  values <> [] -> no_nan values ->
  In (Math_max values) values /\
  Forall (fun v => (v <=? Math_max values) = true) values.
Proof.
  intros Hne Hv. unfold Math_max.
  destruct (Math_max_from_spec values neg_infinity eq_refl Hv) as (Hin & _ & Hall).
  split; [|exact Hall].
  destruct Hin as [Heq | Hin]; [|exact Hin].
  destruct values as [|x rest]; [congruence|].
  inversion_clear Hall as [|? ? Hx _]. rewrite Heq in Hx |- *.
  left. now apply leb_neg_infinity.
Qed.

Lemma Math_min_least values :
  values <> [] -> no_nan values ->
  In (Math_min values) values /\
  Forall (fun v => (Math_min values <=? v) = true) values.
Proof.
  intros Hne Hv. unfold Math_min.
  destruct (Math_min_from_spec values infinity eq_refl Hv) as (Hin & _ & Hall).
  split; [|exact Hall].
  destruct Hin as [Heq | Hin]; [|exact Hin].
  destruct values as [|x rest]; [congruence|].
  inversion_clear Hall as [|? ? Hx _]. rewrite Heq in Hx |- *.
  left. now apply infinity_leb.
Qed.

End JS.

(** ** The health score ([src/lib/calculateHealthScore.ts]) *)

Module HealthScore.
Import JS.
Local Open Scope string_scope.
Local Open Scope list_scope.
Local Open Scope float_scope.

Record SensorReading := {
  (* Electrical *)
  gridVoltage : option number;
  motorCurrent : option number;
  power : option number;
  powerFactor : option number;
  gridFrequency : option number;
  (* Mechanical *)
  vibrationRms : option number;
  vibrationPeakG : option number;
  (* Thermal *)
  motorSurfaceTemp : option number;
  bearingTemp : option number;
  ambientTemp : option number;
  (* Environmental *)
  dustDensity : option number
}.

(** [StatusResult] is imported from [./thresholds]; its shape is the one of
    the object literals that [calculateHealthScore] builds. *)
Inductive StatusLevel := lvl_normal | lvl_warning | lvl_critical.

Record StatusResult := {
  level : StatusLevel;
  label : string;
  color : string;
  bgColor : string
}.

Record HealthFactor := {
  parameter : string;
  value : number;
  status : StatusResult;
  penalty : number
}.

Inductive Category := Healthy | At_Risk | Critical.

Record HealthScoreResult := {
  score : number;
  category : Category;
  factors : list HealthFactor
}.

Definition status_normal : StatusResult :=
  {| level := lvl_normal; label := "Normal";
     color := "text-status-normal"; bgColor := "bg-status-normal" |}.
Definition status_warning : StatusResult :=
  {| level := lvl_warning; label := "Warning";
     color := "text-status-warning"; bgColor := "bg-status-warning" |}.
Definition status_critical : StatusResult :=
  {| level := lvl_critical; label := "Critical";
     color := "text-status-critical"; bgColor := "bg-status-critical" |}.

(** The [thresholds] argument of [addFactor]; an omitted [isLower] is falsy. *)
Record Thresholds := {
  warning : number;
  critical : number;
  isLower : bool
}.

(** The two locals that the closure [addFactor] and the inline checks
    mutate: [score] and [factors]. *)
Record Tally := {
  tally_score : number;
  tally_factors : list HealthFactor
}.

Definition deduct (f : HealthFactor) (t : Tally) : Tally :=
  {| tally_score := tally_score t - penalty f;
     tally_factors := tally_factors t ++ [f] |}.

Definition addFactor (parameter : string) (value : option number)
    (thresholds : Thresholds) (maxPenalty : number) (t : Tally) : Tally :=
  match value with
  | None => t
  | Some value =>
      let '(status, penalty) :=
        if isLower thresholds then
          (* Lower is worse (e.g., power factor) *)
          if value <? critical thresholds then (status_critical, maxPenalty)
          else if value <? warning thresholds then (status_warning, maxPenalty * 0.5)
          else (status_normal, 0)
        else
          (* Higher is worse (e.g., temperature) *)
          if value >? critical thresholds then (status_critical, maxPenalty)
          else if value >? warning thresholds then (status_warning, maxPenalty * 0.5)
          else (status_normal, 0) in
      if penalty >? 0 then
        deduct {| parameter := parameter; value := value;
                  status := status; penalty := penalty |} t
      else t
  end.

(** The thresholds and the maximum penalties of the six [addFactor] calls. *)
Definition vibrationRms_thresholds := {| warning := 2.8; critical := 4.5; isLower := false |}.
Definition vibrationRms_maxPenalty : number := 25.
Definition motorSurfaceTemp_thresholds := {| warning := 70; critical := 85; isLower := false |}.
Definition motorSurfaceTemp_maxPenalty : number := 20.
Definition bearingTemp_thresholds := {| warning := 65; critical := 80; isLower := false |}.
Definition bearingTemp_maxPenalty : number := 20.
Definition motorCurrent_thresholds := {| warning := 4.6; critical := 5.5; isLower := false |}.
Definition motorCurrent_maxPenalty : number := 15.
Definition powerFactor_thresholds := {| warning := 0.85; critical := 0.70; isLower := true |}.
Definition powerFactor_maxPenalty : number := 15.
Definition dustDensity_thresholds := {| warning := 50; critical := 100; isLower := false |}.
Definition dustDensity_maxPenalty : number := 10.

(** VOLTAGE DEVIATION: +/- 10% of 220V is acceptable. *)
Definition voltageDeviation (reading : SensorReading) (t : Tally) : Tally :=
  match gridVoltage reading with
  | None => t
  | Some v =>
      let nominalVoltage := 220 in
      let deviation := Math_abs (v - nominalVoltage) / nominalVoltage in
      if deviation >? 0.15 then
        deduct {| parameter := "gridVoltage"; value := v;
                  status := status_critical; penalty := 10 |} t
      else if deviation >? 0.10 then
        deduct {| parameter := "gridVoltage"; value := v;
                  status := status_warning; penalty := 5 |} t
      else t
  end.

(** FREQUENCY DEVIATION: should be very close to 50Hz. *)
Definition frequencyDeviation (reading : SensorReading) (t : Tally) : Tally :=
  match gridFrequency reading with
  | None => t
  | Some v =>
      let deviation := Math_abs (v - 50) / 50 in
      if deviation >? 0.02 then
        deduct {| parameter := "gridFrequency"; value := v;
                  status := status_critical; penalty := 5 |} t
      else if deviation >? 0.01 then
        deduct {| parameter := "gridFrequency"; value := v;
                  status := status_warning; penalty := 2 |} t
      else t
  end.

(** The body of [calculateHealthScore] down to the last check: the tally
    after the eight deductions, in the order of the source. *)
Definition deductions (reading : SensorReading) : Tally :=
  let t := {| tally_score := 100; tally_factors := [] |} in
  let t := addFactor "vibrationRms" (vibrationRms reading)
             vibrationRms_thresholds vibrationRms_maxPenalty t in
  let t := addFactor "motorSurfaceTemp" (motorSurfaceTemp reading)
             motorSurfaceTemp_thresholds motorSurfaceTemp_maxPenalty t in
  let t := addFactor "bearingTemp" (bearingTemp reading)
             bearingTemp_thresholds bearingTemp_maxPenalty t in
  let t := addFactor "motorCurrent" (motorCurrent reading)
             motorCurrent_thresholds motorCurrent_maxPenalty t in
  let t := addFactor "powerFactor" (powerFactor reading)
             powerFactor_thresholds powerFactor_maxPenalty t in
  let t := voltageDeviation reading t in
  let t := addFactor "dustDensity" (dustDensity reading)
             dustDensity_thresholds dustDensity_maxPenalty t in
  frequencyDeviation reading t.

Definition categorize (score : number) : Category :=
  if score >=? 80 then Healthy
  else if score >=? 60 then At_Risk
  else Critical.

Definition calculateHealthScore (reading : SensorReading) : HealthScoreResult :=
  let t := deductions reading in
  (* Ensure score is within bounds *)
  let score := Math_max [0; Math_min [100; tally_score t]] in
  (* Determine category *)
  let category := categorize score in
  (* Sort factors by penalty (highest first) *)
  let factors := Array_sort (fun a b => penalty b - penalty a) (tally_factors t) in
  {| score := Math_round score; category := category; factors := factors |}.


(** *** Auxiliary notions for the proofs

    A snapshot with one field replaced ("holding all other fields fixed"). *)
Definition with_vibrationRms (v : number) (r : SensorReading) : SensorReading :=
  {| gridVoltage := gridVoltage r; motorCurrent := motorCurrent r; power := power r;
     powerFactor := powerFactor r; gridFrequency := gridFrequency r;
     vibrationRms := Some v; vibrationPeakG := vibrationPeakG r;
     motorSurfaceTemp := motorSurfaceTemp r; bearingTemp := bearingTemp r;
     ambientTemp := ambientTemp r; dustDensity := dustDensity r |}.

Definition with_motorSurfaceTemp (v : number) (r : SensorReading) : SensorReading :=
  {| gridVoltage := gridVoltage r; motorCurrent := motorCurrent r; power := power r;
     powerFactor := powerFactor r; gridFrequency := gridFrequency r;
     vibrationRms := vibrationRms r; vibrationPeakG := vibrationPeakG r;
     motorSurfaceTemp := Some v; bearingTemp := bearingTemp r;
     ambientTemp := ambientTemp r; dustDensity := dustDensity r |}.

Definition with_bearingTemp (v : number) (r : SensorReading) : SensorReading :=
  {| gridVoltage := gridVoltage r; motorCurrent := motorCurrent r; power := power r;
     powerFactor := powerFactor r; gridFrequency := gridFrequency r;
     vibrationRms := vibrationRms r; vibrationPeakG := vibrationPeakG r;
     motorSurfaceTemp := motorSurfaceTemp r; bearingTemp := Some v;
     ambientTemp := ambientTemp r; dustDensity := dustDensity r |}.

Definition with_motorCurrent (v : number) (r : SensorReading) : SensorReading :=
  {| gridVoltage := gridVoltage r; motorCurrent := Some v; power := power r;
     powerFactor := powerFactor r; gridFrequency := gridFrequency r;
     vibrationRms := vibrationRms r; vibrationPeakG := vibrationPeakG r;
     motorSurfaceTemp := motorSurfaceTemp r; bearingTemp := bearingTemp r;
     ambientTemp := ambientTemp r; dustDensity := dustDensity r |}.

Definition with_powerFactor (v : number) (r : SensorReading) : SensorReading :=
  {| gridVoltage := gridVoltage r; motorCurrent := motorCurrent r; power := power r;
     powerFactor := Some v; gridFrequency := gridFrequency r;
     vibrationRms := vibrationRms r; vibrationPeakG := vibrationPeakG r;
     motorSurfaceTemp := motorSurfaceTemp r; bearingTemp := bearingTemp r;
     ambientTemp := ambientTemp r; dustDensity := dustDensity r |}.

Definition with_dustDensity (v : number) (r : SensorReading) : SensorReading :=
  {| gridVoltage := gridVoltage r; motorCurrent := motorCurrent r; power := power r;
     powerFactor := powerFactor r; gridFrequency := gridFrequency r;
     vibrationRms := vibrationRms r; vibrationPeakG := vibrationPeakG r;
     motorSurfaceTemp := motorSurfaceTemp r; bearingTemp := bearingTemp r;
     ambientTemp := ambientTemp r; dustDensity := Some v |}.

(** The snapshot with every field absent. *)
Definition no_reading : SensorReading :=
  {| gridVoltage := None; motorCurrent := None; power := None; powerFactor := None;
     gridFrequency := None; vibrationRms := None; vibrationPeakG := None;
     motorSurfaceTemp := None; bearingTemp := None; ambientTemp := None;
     dustDensity := None |}.

(** The field of the snapshot that a factor's [parameter] names. *)
Definition field (reading : SensorReading) (parameter : string) : option number :=
  if String.eqb parameter "vibrationRms" then vibrationRms reading
  else if String.eqb parameter "motorSurfaceTemp" then motorSurfaceTemp reading
  else if String.eqb parameter "bearingTemp" then bearingTemp reading
  else if String.eqb parameter "motorCurrent" then motorCurrent reading
  else if String.eqb parameter "powerFactor" then powerFactor reading
  else if String.eqb parameter "gridVoltage" then gridVoltage reading
  else if String.eqb parameter "dustDensity" then dustDensity reading
  else if String.eqb parameter "gridFrequency" then gridFrequency reading
  else None.

(** The level that each of the eight checks assigns, as a function of the
    value alone; an absent value is not evaluated. *)
Definition severity (thresholds : Thresholds) (value : option number) : StatusLevel :=
  match value with
  | None => lvl_normal
  | Some value =>
      if isLower thresholds then
        if value <? critical thresholds then lvl_critical
        else if value <? warning thresholds then lvl_warning
        else lvl_normal
      else
        if value >? critical thresholds then lvl_critical
        else if value >? warning thresholds then lvl_warning
        else lvl_normal
  end.

Definition deviation_severity (nominal warn crit : number) (value : option number) : StatusLevel :=
  match value with
  | None => lvl_normal
  | Some v =>
      let deviation := Math_abs (v - nominal) / nominal in
      if deviation >? crit then lvl_critical
      else if deviation >? warn then lvl_warning
      else lvl_normal
  end.

Definition severities (reading : SensorReading) : list StatusLevel :=
  [ severity vibrationRms_thresholds (vibrationRms reading);
    severity motorSurfaceTemp_thresholds (motorSurfaceTemp reading);
    severity bearingTemp_thresholds (bearingTemp reading);
    severity motorCurrent_thresholds (motorCurrent reading);
    severity powerFactor_thresholds (powerFactor reading);
    deviation_severity 220 0.10 0.15 (gridVoltage reading);
    severity dustDensity_thresholds (dustDensity reading);
    deviation_severity 50 0.01 0.02 (gridFrequency reading) ].

(** What each check deducts at the warning and at the critical level. *)
Definition penalty_table : list (number * number) :=
  [ (vibrationRms_maxPenalty * 0.5, vibrationRms_maxPenalty);
    (motorSurfaceTemp_maxPenalty * 0.5, motorSurfaceTemp_maxPenalty);
    (bearingTemp_maxPenalty * 0.5, bearingTemp_maxPenalty);
    (motorCurrent_maxPenalty * 0.5, motorCurrent_maxPenalty);
    (powerFactor_maxPenalty * 0.5, powerFactor_maxPenalty);
    (5, 10);
    (dustDensity_maxPenalty * 0.5, dustDensity_maxPenalty);
    (2, 5) ].

Definition charge (l : StatusLevel) (wc : number * number) : option number :=
  match l with
  | lvl_normal => None
  | lvl_warning => Some (fst wc)
  | lvl_critical => Some (snd wc)
  end.

(** The running score and the penalties charged so far. *)
Definition ledger : Type := number * list number.

Definition post (l : StatusLevel) (wc : number * number) (b : ledger) : ledger :=
  match charge l wc with
  | Some p => (fst b - p, snd b ++ [p])
  | None => b
  end.

Fixpoint post_all (levels : list StatusLevel) (table : list (number * number))
    (b : ledger) : ledger :=
  match levels, table with
  | l :: levels, wc :: table => post_all levels table (post l wc b)
  | _, _ => b
  end.

Definition ledger_of (t : Tally) : ledger :=
  (tally_score t, map penalty (tally_factors t)).

Definition books (levels : list StatusLevel) : ledger :=
  post_all levels penalty_table (100, []).

Definition bound (score : number) : number := Math_max [0; Math_min [100; score]].

(** [clamp x lo hi] in the usual sense. *)
Definition clamp (x lo hi : number) : number :=
  if x <? lo then lo else if x >? hi then hi else x.

Definition total (penalties : list number) : number :=
  fold_left add penalties 0.

Fixpoint all_levels (n : nat) : list (list StatusLevel) :=
  match n with
  | O => [[]]
  | S n =>
      flat_map (fun ls => [lvl_normal :: ls; lvl_warning :: ls; lvl_critical :: ls])
               (all_levels n)
  end.

Definition level_leb (a b : StatusLevel) : bool :=
  match a, b with
  | lvl_normal, _ => true
  | lvl_warning, (lvl_warning | lvl_critical) => true
  | lvl_critical, lvl_critical => true
  | _, _ => false
  end.

Definition raw_score (levels : list StatusLevel) : number := fst (books levels).

Definition final_score (levels : list StatusLevel) : number :=
  Math_round (bound (raw_score levels)).

Definition category_eqb (a b : Category) : bool :=
  match a, b with
  | Healthy, Healthy | At_Risk, At_Risk | Critical, Critical => true
  | _, _ => false
  end.

(** The snapshot of the worked example. *)
Definition example_reading : SensorReading :=
  {| gridVoltage := Some 220; motorCurrent := Some 3; power := None;
     powerFactor := Some 0.95; gridFrequency := Some 50;
     vibrationRms := Some 5.0; vibrationPeakG := None;
     motorSurfaceTemp := Some 90; bearingTemp := Some 50;
     ambientTemp := None; dustDensity := Some 0 |}.

(** The [maxPenalty] arguments of the six [addFactor] calls, in order. *)
Definition standard_maxPenalties : list number :=
  [ vibrationRms_maxPenalty; motorSurfaceTemp_maxPenalty; bearingTemp_maxPenalty;
    motorCurrent_maxPenalty; powerFactor_maxPenalty; dustDensity_maxPenalty ].

(** The integer part of a double (0 for [NaN] and the infinities). *)
Definition integer_part (x : number) : Z :=
  match Prim2SF x with
  | S754_finite s m e =>
      cond_Zopp s (if (0 <=? e)%Z then Zpos m * 2 ^ e else Zpos m / 2 ^ (- e))%Z
  | _ => 0%Z
  end.

(** A vector of levels with one more level put at position [i]. *)
Definition insert_at (i : nat) (l : StatusLevel) (rest : list StatusLevel) : list StatusLevel :=
  firstn i rest ++ l :: skipn i rest.

Definition drop_nth (i : nat) (ls : list StatusLevel) : list StatusLevel :=
  firstn i ls ++ skipn (S i) ls.

Fixpoint distinct (l : list number) : list number :=
  match l with
  | [] => []
  | x :: l => if existsb (PrimFloat.Leibniz.eqb x) l then distinct l else x :: distinct l
  end.

(** The running scores that the eight checks can leave behind, and for
    each of them the bounded and the rounded score. *)
Definition reachable_scores : list number :=
  Eval vm_compute in distinct (map raw_score (all_levels 8)).

Definition outcome (raw : number) : number * (number * number) :=
  (raw, (bound raw, Math_round (bound raw))).

Definition outcomes : list (number * (number * number)) :=
  Eval vm_compute in map outcome reachable_scores.

Definition reachable_check (ls : list StatusLevel) : bool :=
  existsb (PrimFloat.Leibniz.eqb (raw_score ls)) reachable_scores.

(** The three equivalences between the returned score and the category. *)
Definition category_check (o : number * (number * number)) : bool :=
  let '(_, (b, s)) := o in
  let c := categorize b in
  Bool.eqb (s >=? 80) (category_eqb c Healthy)
  && Bool.eqb ((s >=? 60) && (s <? 80)) (category_eqb c At_Risk)
  && Bool.eqb (s <? 60) (category_eqb c Critical).

(** The running score is 100 minus the sum of the penalties, also when
    they are added up in the order of the returned factors. *)
Definition ledger_check (ls : list StatusLevel) : bool :=
  PrimFloat.Leibniz.eqb (raw_score ls)
    (100 - total (Array_sort (fun a b => b - a) (snd (books ls)))).

(** The bounded score is the clamped one, and the rounded score is an
    integer between 0 and 100 within one half of it. *)
Definition bounds_check (o : number * (number * number)) : bool :=
  let '(raw, (b, s)) := o in
  let z := integer_part s in
  PrimFloat.Leibniz.eqb b (clamp raw 0 100)
  && (PrimFloat.Leibniz.eqb s (of_Z z) && (0 <=? z)%Z && (z <=? 100)%Z)
  && (Math_abs (s - b) <=? 0.5).

(** Whatever the other seven levels are, a worse level of check [i]
    leaves a running score that is not higher. *)
Definition raw_monotone_check (i : nat) : bool :=
  forallb (fun rest =>
    let n := raw_score (insert_at i lvl_normal rest) in
    let w := raw_score (insert_at i lvl_warning rest) in
    let c := raw_score (insert_at i lvl_critical rest) in
    (n <=? n) && (w <=? n) && (c <=? n) && (w <=? w) && (c <=? w) && (c <=? c))
  (all_levels 7).

(** Bounding and rounding keep the order of the running scores. *)
Definition rounding_monotone_check : bool :=
  forallb (fun p =>
    forallb (fun q => implb (fst p <=? fst q) (snd (snd p) <=? snd (snd q))) outcomes)
  outcomes.

(** The positions of the six threshold checks in [severities]. *)
Definition threshold_checks : list nat := [0; 1; 2; 3; 4; 6]%nat.

(** *** The tally follows the books

    Whatever the values are, each check either leaves the tally alone or
    deducts one of two fixed amounts; the score and the penalties therefore
    depend on the eight levels only. *)

Lemma deduct_ledger f t :
  ledger_of (deduct f t) = (fst (ledger_of t) - penalty f, snd (ledger_of t) ++ [penalty f]).
Proof. unfold ledger_of, deduct. simpl. now rewrite map_app. Qed.

Lemma addFactor_ledger parameter value thresholds maxPenalty t :
  (maxPenalty >? 0) = true -> (maxPenalty * 0.5 >? 0) = true ->
  ledger_of (addFactor parameter value thresholds maxPenalty t) =
  post (severity thresholds value) (maxPenalty * 0.5, maxPenalty) (ledger_of t).
Proof.
  intros Hmax Hhalf. unfold addFactor, severity.
  destruct value as [v|]; [|reflexivity].
  replace (0 >? 0) with false by reflexivity.
  destruct (isLower thresholds);
    [ destruct (v <? critical thresholds), (v <? warning thresholds)
    | destruct (v >? critical thresholds), (v >? warning thresholds) ];
    rewrite ?Hmax, ?Hhalf, ?deduct_ledger; reflexivity.
Qed.

Lemma voltageDeviation_ledger reading t :
  ledger_of (voltageDeviation reading t) =
  post (deviation_severity 220 0.10 0.15 (gridVoltage reading)) (5, 10) (ledger_of t).
Proof.
  unfold voltageDeviation, deviation_severity.
  destruct (gridVoltage reading) as [v|]; [|reflexivity]. cbv zeta.
  repeat match goal with
  | |- context [if ?a <? ?b then _ else _] => destruct (a <? b)
  end; rewrite ?deduct_ledger; reflexivity.
Qed.

Lemma frequencyDeviation_ledger reading t :
  ledger_of (frequencyDeviation reading t) =
  post (deviation_severity 50 0.01 0.02 (gridFrequency reading)) (2, 5) (ledger_of t).
Proof.
  unfold frequencyDeviation, deviation_severity.
  destruct (gridFrequency reading) as [v|]; [|reflexivity]. cbv zeta.
  repeat match goal with
  | |- context [if ?a <? ?b then _ else _] => destruct (a <? b)
  end; rewrite ?deduct_ledger; reflexivity.
Qed.

Lemma deductions_ledger reading :
  ledger_of (deductions reading) = books (severities reading).
Proof.
  unfold deductions, books, severities, penalty_table. cbv zeta. cbn [post_all].
  rewrite frequencyDeviation_ledger.
  rewrite addFactor_ledger by reflexivity.
  rewrite voltageDeviation_ledger.
  now rewrite !addFactor_ledger by reflexivity.
Qed.

Lemma sort_insert_map {A} (f : A -> number) (c : number -> number -> number) x l :
  map f (sort_insert (fun a b => c (f a) (f b)) x l) = sort_insert c (f x) (map f l).
Proof.
  induction l as [|y l IH]; simpl; [reflexivity|].
  destruct (c (f y) (f x) >? 0); simpl; [reflexivity | now rewrite IH].
Qed.

Lemma Array_sort_map {A} (f : A -> number) (c : number -> number -> number) l :
  map f (Array_sort (fun a b => c (f a) (f b)) l) = Array_sort c (map f l).
Proof.
  unfold Array_sort. change (@nil number) with (map f []).
  generalize (@nil A) as acc. induction l as [|x l IH]; intros acc; simpl; [reflexivity|].
  now rewrite IH, sort_insert_map.
Qed.

Lemma result_by_levels reading :
  let ls := severities reading in
  let r := calculateHealthScore reading in
  score r = final_score ls /\
  category r = categorize (bound (fst (books ls))) /\
  map penalty (factors r) = Array_sort (fun a b => b - a) (snd (books ls)).
Proof.
  cbv zeta. unfold calculateHealthScore, final_score, raw_score.
  rewrite <- deductions_ledger.
  cbn [score category factors ledger_of fst snd].
  split; [reflexivity | split; [reflexivity|]].
  apply (Array_sort_map penalty (fun a b => b - a)).
Qed.

Lemma all_levels_complete ls : In ls (all_levels (length ls)).
Proof.
  induction ls as [|l ls IH]; simpl; [now left|].
  apply in_flat_map. exists ls. split; [exact IH|].
  destruct l; simpl; auto.
Qed.

Lemma severities_length reading : length (severities reading) = 8%nat.
Proof. reflexivity. Qed.

(** A property of the levels that holds on all [3^8] vectors holds for
    every snapshot. *)
Lemma by_levels (P : list StatusLevel -> bool) :
  forallb P (all_levels 8) = true -> forall reading, P (severities reading) = true.
Proof.
  intros H reading. rewrite forallb_forall in H. apply H.
  rewrite <- (severities_length reading). apply all_levels_complete.
Qed.

(** *** The worked example *)

(** C3: on the snapshot of the worked example the calculator returns score
    55, category Critical, and exactly two factors: vibrationRms with
    penalty 25, then motorSurfaceTemp with penalty 20. *)
Theorem example_score_55_critical :
  calculateHealthScore example_reading =
  {| score := 55; category := Critical;
     factors :=
       [ {| parameter := "vibrationRms"; value := 5.0;
            status := status_critical; penalty := 25 |};
         {| parameter := "motorSurfaceTemp"; value := 90;
            status := status_critical; penalty := 20 |} ] |}.
Proof. vm_compute. reflexivity. Qed.

(** *** Score and category *)

Lemma outcomes_correct : outcomes = map outcome reachable_scores.
Proof. vm_cast_no_check (eq_refl outcomes). Qed.

Lemma reachable_check_all : forallb reachable_check (all_levels 8) = true.
Proof. vm_cast_no_check (eq_refl true). Qed.

Lemma outcome_listed ls : length ls = 8%nat -> In (outcome (raw_score ls)) outcomes.
Proof.
  intros Hlen. rewrite outcomes_correct. apply in_map.
  pose proof reachable_check_all as H. rewrite forallb_forall in H.
  specialize (H ls). rewrite <- Hlen in H. specialize (H (all_levels_complete ls)).
  apply existsb_exists in H as (x & Hx & Heq).
  apply FloatAxioms.Leibniz.eqb_spec in Heq. now rewrite Heq.
Qed.

(** A property of the outcomes that holds on the whole table holds for
    every vector of eight levels. *)
Lemma on_outcomes (P : number * (number * number) -> bool) :
  forallb P outcomes = true ->
  forall ls, length ls = 8%nat -> P (outcome (raw_score ls)) = true.
Proof.
  intros H ls Hlen. rewrite forallb_forall in H. apply H. now apply outcome_listed.
Qed.

Lemma category_check_all : forallb category_check outcomes = true.
Proof. vm_cast_no_check (eq_refl true). Qed.

Lemma category_eqb_eq a b : category_eqb a b = true <-> a = b.
Proof. destruct a, b; simpl; split; congruence. Qed.

(** C4: for every snapshot the returned (rounded) score and the category
    agree: score >= 80 iff Healthy, 60 <= score < 80 iff At Risk,
    score < 60 iff Critical. *)
Theorem category_matches_returned_score reading :
  let r := calculateHealthScore reading in
  ((score r >=? 80) = true <-> category r = Healthy) /\
  ((score r >=? 60) = true /\ (score r <? 80) = true <-> category r = At_Risk) /\
  ((score r <? 60) = true <-> category r = Critical).
Proof.
  cbv zeta. destruct (result_by_levels reading) as (-> & -> & _).
  pose proof (on_outcomes _ category_check_all _ (severities_length reading)) as H.
  unfold category_check, outcome in H. cbv zeta in H.
  fold (final_score (severities reading)) in H.
  apply andb_prop in H as [H H3]. apply andb_prop in H as [H1 H2].
  apply Bool.eqb_prop in H1, H2, H3.
  rewrite <- !category_eqb_eq. unfold raw_score in *.
  rewrite <- H1, <- H2, <- H3, andb_true_iff.
  tauto.
Qed.

Lemma ledger_check_all : forallb ledger_check (all_levels 8) = true.
Proof. vm_cast_no_check (eq_refl true). Qed.

Lemma bounds_check_all : forallb bounds_check outcomes = true.
Proof. vm_cast_no_check (eq_refl true). Qed.

(** C5: for every snapshot the returned score is an integer between 0 and
    100; it is clamp(100 - sum of the applied penalties, 0, 100) rounded
    by [Math.round], which is an integer nearest to it. *)
Theorem score_is_clamped_rounded_integer reading :
  let r := calculateHealthScore reading in
  let clamped := clamp (100 - total (map penalty (factors r))) 0 100 in
  score r = Math_round clamped /\
  (exists z : Z, (0 <= z <= 100)%Z /\ score r = of_Z z) /\
  (Math_abs (score r - clamped) <=? 0.5) = true.
Proof.
  cbv zeta. destruct (result_by_levels reading) as (-> & _ & ->).
  pose proof (by_levels _ ledger_check_all reading) as Hsum.
  apply FloatAxioms.Leibniz.eqb_spec in Hsum. rewrite <- Hsum.
  pose proof (on_outcomes _ bounds_check_all _ (severities_length reading)) as H.
  unfold bounds_check, outcome in H. cbv zeta in H.
  fold (final_score (severities reading)) in H.
  apply andb_prop in H as [H H3]. apply andb_prop in H as [H1 H2].
  apply FloatAxioms.Leibniz.eqb_spec in H1.
  apply andb_prop in H2 as [H2 Hhi]. apply andb_prop in H2 as [Heq Hlo].
  apply FloatAxioms.Leibniz.eqb_spec in Heq.
  rewrite <- H1.
  split; [reflexivity | split; [|exact H3]].
  eexists. split; [|exact Heq]. lia.
Qed.

(** *** The penalty budget *)

(** C8 (as the code has it): the six [maxPenalty] values are 25, 20, 20,
    15, 15 and 10, and they sum to 105. *)
Theorem standard_maxPenalties_sum_105 :
  standard_maxPenalties = [25; 20; 20; 15; 15; 10] /\
  total standard_maxPenalties = 105.
Proof. split; reflexivity. Qed.

(** C8 as stated fails: the six values do not sum to 110. *)
Lemma standard_maxPenalties_sum_not_110 :
  standard_maxPenalties = [25; 20; 20; 15; 15; 10] /\
  total standard_maxPenalties <> 110.
Proof.
  split; [reflexivity|]. intros H.
  apply (f_equal (fun x => x =? 110)) in H. vm_compute in H. discriminate H.
Qed.

(** *** Fields that are declared but never read *)

(** C10: snapshots that agree on the eight fields the checks read (that
    is, differ at most in [power], [ambientTemp] and [vibrationPeakG])
    get the same result. *)
Theorem unread_fields_do_not_matter r1 r2 :
  gridVoltage r1 = gridVoltage r2 ->
  motorCurrent r1 = motorCurrent r2 ->
  powerFactor r1 = powerFactor r2 ->
  gridFrequency r1 = gridFrequency r2 ->
  vibrationRms r1 = vibrationRms r2 ->
  motorSurfaceTemp r1 = motorSurfaceTemp r2 ->
  bearingTemp r1 = bearingTemp r2 ->
  dustDensity r1 = dustDensity r2 ->
  calculateHealthScore r1 = calculateHealthScore r2.
Proof.
  destruct r1, r2. simpl. intros. subst.
  unfold calculateHealthScore, deductions, voltageDeviation, frequencyDeviation.
  reflexivity.
Qed.

Lemma unread_fields_do_not_matter_witness :
  calculateHealthScore
    {| gridVoltage := Some 250; motorCurrent := Some 5; power := Some 750;
       powerFactor := Some 0.8; gridFrequency := Some 50;
       vibrationRms := Some 3; vibrationPeakG := Some 9;
       motorSurfaceTemp := Some 72; bearingTemp := Some 50;
       ambientTemp := Some 45; dustDensity := None |} =
  calculateHealthScore
    {| gridVoltage := Some 250; motorCurrent := Some 5; power := None;
       powerFactor := Some 0.8; gridFrequency := Some 50;
       vibrationRms := Some 3; vibrationPeakG := Some 0.1;
       motorSurfaceTemp := Some 72; bearingTemp := Some 50;
       ambientTemp := None; dustDensity := None |}.
Proof. apply unread_fields_do_not_matter; reflexivity. Defined.

(** *** Monotonicity *)

Lemma severity_higher_is_worse thresholds v v' :
  isLower thresholds = false -> (v <=? v') = true ->
  level_leb (severity thresholds (Some v)) (severity thresholds (Some v')) = true.
Proof.
  intros Hdir Hle. unfold severity. rewrite Hdir.
  destruct (v >? critical thresholds) eqn:Hc, (v >? warning thresholds) eqn:Hw,
           (v' >? critical thresholds) eqn:Hc', (v' >? warning thresholds) eqn:Hw';
    try reflexivity; exfalso;
    first [ rewrite (ltb_leb_trans _ _ _ Hc Hle) in Hc'; discriminate Hc'
          | rewrite (ltb_leb_trans _ _ _ Hw Hle) in Hw'; discriminate Hw' ].
Qed.

Lemma severity_lower_is_worse thresholds v v' :
  isLower thresholds = true -> (v <=? v') = true ->
  level_leb (severity thresholds (Some v')) (severity thresholds (Some v)) = true.
Proof.
  intros Hdir Hle. unfold severity. rewrite Hdir.
  destruct (v <? critical thresholds) eqn:Hc, (v <? warning thresholds) eqn:Hw,
           (v' <? critical thresholds) eqn:Hc', (v' <? warning thresholds) eqn:Hw';
    try reflexivity; exfalso;
    first [ rewrite (leb_ltb_trans _ _ _ Hle Hc') in Hc; discriminate Hc
          | rewrite (leb_ltb_trans _ _ _ Hle Hw') in Hw; discriminate Hw ].
Qed.

Lemma raw_monotone_check_all : forallb raw_monotone_check threshold_checks = true.
Proof. vm_cast_no_check (eq_refl true). Qed.

Lemma rounding_monotone_check_all : rounding_monotone_check = true.
Proof. vm_cast_no_check (eq_refl true). Qed.

Lemma insert_at_length i l rest : length (insert_at i l rest) = S (length rest).
Proof.
  unfold insert_at. rewrite <- (firstn_skipn i rest) at 3.
  rewrite !List.length_app. simpl. lia.
Qed.

Lemma worse_level_lower_raw_score i rest l l' :
  In i threshold_checks -> length rest = 7%nat -> level_leb l l' = true ->
  (raw_score (insert_at i l' rest) <=? raw_score (insert_at i l rest)) = true.
Proof.
  intros Hi Hlen Hle.
  pose proof raw_monotone_check_all as H. rewrite forallb_forall in H.
  specialize (H i Hi). unfold raw_monotone_check in H. rewrite forallb_forall in H.
  specialize (H rest). rewrite <- Hlen in H. specialize (H (all_levels_complete rest)).
  cbv zeta in H. rewrite !andb_true_iff in H.
  destruct H as (((((Hnn & Hwn) & Hcn) & Hww) & Hcw) & Hcc).
  destruct l, l'; try discriminate Hle; assumption.
Qed.

Lemma worse_level_lower_score i rest l l' :
  In i threshold_checks -> length rest = 7%nat -> level_leb l l' = true ->
  (final_score (insert_at i l' rest) <=? final_score (insert_at i l rest)) = true.
Proof.
  intros Hi Hlen Hle.
  pose proof (worse_level_lower_raw_score i rest l l' Hi Hlen Hle) as Hraw.
  pose proof rounding_monotone_check_all as H.
  unfold rounding_monotone_check in H. rewrite forallb_forall in H.
  assert (H8 : forall x, length (insert_at i x rest) = 8%nat)
    by (intros x; now rewrite insert_at_length, Hlen).
  specialize (H _ (outcome_listed _ (H8 l'))). rewrite forallb_forall in H.
  specialize (H _ (outcome_listed _ (H8 l))).
  unfold outcome in H. cbn [fst snd] in H. rewrite Hraw in H. exact H.
Qed.

Ltac one_field i H :=
  intros H; rewrite !(proj1 (result_by_levels _));
  match goal with
  | |- (final_score (severities ?a) <=? final_score (severities ?b)) = true =>
      change (severities a) with (insert_at i (nth i (severities a) lvl_normal)
                                              (drop_nth i (severities b)));
      change (severities b) with (insert_at i (nth i (severities b) lvl_normal)
                                              (drop_nth i (severities b))) at 2
  end;
  cbn [nth severities with_vibrationRms with_motorSurfaceTemp with_bearingTemp
       with_motorCurrent with_powerFactor with_dustDensity
       vibrationRms motorSurfaceTemp bearingTemp motorCurrent powerFactor dustDensity];
  rewrite H;
  apply worse_level_lower_score; [cbn; tauto | reflexivity |].

(** C6: with all other fields fixed, raising the value of vibrationRms,
    motorSurfaceTemp, bearingTemp, motorCurrent or dustDensity never
    raises the returned score, and raising powerFactor never lowers it. *)
Theorem score_monotone_in_each_parameter reading v v' :
  (v <=? v') = true ->
  let s r := score (calculateHealthScore r) in
  (vibrationRms reading = Some v ->
     (s (with_vibrationRms v' reading) <=? s reading) = true) /\
  (motorSurfaceTemp reading = Some v ->
     (s (with_motorSurfaceTemp v' reading) <=? s reading) = true) /\
  (bearingTemp reading = Some v ->
     (s (with_bearingTemp v' reading) <=? s reading) = true) /\
  (motorCurrent reading = Some v ->
     (s (with_motorCurrent v' reading) <=? s reading) = true) /\
  (dustDensity reading = Some v ->
     (s (with_dustDensity v' reading) <=? s reading) = true) /\
  (powerFactor reading = Some v ->
     (s reading <=? s (with_powerFactor v' reading)) = true).
Proof.
  intros Hle. cbv zeta.
  split; [|split; [|split; [|split; [|split]]]].
  - one_field 0%nat H. now apply severity_higher_is_worse.
  - one_field 1%nat H. now apply severity_higher_is_worse.
  - one_field 2%nat H. now apply severity_higher_is_worse.
  - one_field 3%nat H. now apply severity_higher_is_worse.
  - one_field 6%nat H. now apply severity_higher_is_worse.
  - intros H. rewrite !(proj1 (result_by_levels _)).
    change (severities reading)
      with (insert_at 4 (severity powerFactor_thresholds (powerFactor reading))
                        (drop_nth 4 (severities reading))).
    change (severities (with_powerFactor v' reading))
      with (insert_at 4 (severity powerFactor_thresholds (Some v'))
                        (drop_nth 4 (severities reading))).
    rewrite H. apply worse_level_lower_score; [cbn; tauto | reflexivity |].
    now apply severity_lower_is_worse.
Qed.

Lemma score_monotone_in_each_parameter_witness :
  (score (calculateHealthScore (with_vibrationRms 5.0 (with_vibrationRms 1.5 example_reading)))
   <=? score (calculateHealthScore (with_vibrationRms 1.5 example_reading))) = true.
Proof.
  exact (proj1 (score_monotone_in_each_parameter
                  (with_vibrationRms 1.5 example_reading) 1.5 5.0 eq_refl) eq_refl).
Defined.


(** *** Missing data *)

Lemma sort_insert_In {A} (c : A -> A -> number) x y l :
  In y (sort_insert c x l) -> y = x \/ In y l.
Proof.
  induction l as [|z l IH]; simpl.
  - intros [<- | []]. now left.
  - destruct (c z x >? 0); simpl.
    + intros [<- | [<- | H]]; auto.
    + intros [<- | H]; auto. destruct (IH H); auto.
Qed.

Lemma Array_sort_In {A} (c : A -> A -> number) y l :
  In y (Array_sort c l) -> In y l.
Proof.
  unfold Array_sort.
  assert (G : forall acc, In y (fold_left (fun sorted x => sort_insert c x sorted) l acc) ->
                          In y acc \/ In y l).
  { induction l as [|x l IH]; intros acc; simpl; [now left|].
    intros H. destruct (IH _ H) as [H' | H']; [|now auto].
    destruct (sort_insert_In _ _ _ _ H'); auto. }
  intros H. destruct (G [] H) as [[] | H']. exact H'.
Qed.

Lemma addFactor_factors (Q : HealthFactor -> Prop) p value thresholds maxPenalty t :
  Forall Q (tally_factors t) ->
  (forall v st pen, value = Some v -> (pen >? 0) = true ->
     Q {| parameter := p; value := v; status := st; penalty := pen |}) ->
  Forall Q (tally_factors (addFactor p value thresholds maxPenalty t)).
Proof.
  intros Ht Hnew. unfold addFactor. destruct value as [v|]; [|exact Ht].
  match goal with |- context [let '(_, _) := ?e in _] => destruct e as [st pen] end.
  destruct (pen >? 0) eqn:Hpen; [|exact Ht].
  simpl. apply Forall_app. split; [exact Ht|].
  constructor; [|constructor]. now apply Hnew.
Qed.

(** Every factor names a field that is present, carries its value, and
    has a positive penalty. *)
Definition factor_of (reading : SensorReading) (f : HealthFactor) : Prop :=
  field reading (parameter f) = Some (value f) /\ (penalty f >? 0) = true.

Lemma deductions_factors reading :
  Forall (factor_of reading) (tally_factors (deductions reading)).
Proof.
  unfold deductions. cbv zeta.
  unfold frequencyDeviation.
  assert (H : Forall (factor_of reading) (tally_factors
    (addFactor "dustDensity" (dustDensity reading) dustDensity_thresholds
       dustDensity_maxPenalty
       (voltageDeviation reading
          (addFactor "powerFactor" (powerFactor reading) powerFactor_thresholds
             powerFactor_maxPenalty
             (addFactor "motorCurrent" (motorCurrent reading) motorCurrent_thresholds
                motorCurrent_maxPenalty
                (addFactor "bearingTemp" (bearingTemp reading) bearingTemp_thresholds
                   bearingTemp_maxPenalty
                   (addFactor "motorSurfaceTemp" (motorSurfaceTemp reading)
                      motorSurfaceTemp_thresholds motorSurfaceTemp_maxPenalty
                      (addFactor "vibrationRms" (vibrationRms reading)
                         vibrationRms_thresholds vibrationRms_maxPenalty
                         {| tally_score := 100; tally_factors := [] |}))))))))).
  { apply addFactor_factors; [|intros v st pen E Hp; split; [exact E | exact Hp]].
    unfold voltageDeviation.
    match goal with |- Forall _ (tally_factors
        match _ with Some _ => _ | None => ?t end) =>
      assert (Ht : Forall (factor_of reading) (tally_factors t)) end.
    { repeat (apply addFactor_factors;
              [|intros v st pen E Hp; split; [exact E | exact Hp]]).
      constructor. }
    destruct (gridVoltage reading) as [v|] eqn:E; [|exact Ht]. cbv zeta.
    repeat match goal with
    | |- context [if ?a <? ?b then _ else _] => destruct (a <? b)
    end; try exact Ht;
      simpl; apply Forall_app; (split; [exact Ht|]);
      (constructor; [|constructor]); (split; [exact E | reflexivity]). }
  destruct (gridFrequency reading) as [v|] eqn:E; [|exact H]. cbv zeta.
  repeat match goal with
  | |- context [if ?a <? ?b then _ else _] => destruct (a <? b)
  end; try exact H;
    simpl; apply Forall_app; (split; [exact H|]);
    (constructor; [|constructor]); (split; [exact E | reflexivity]).
Qed.

Lemma factors_of_reading reading f :
  In f (factors (calculateHealthScore reading)) -> factor_of reading f.
Proof.
  unfold calculateHealthScore. cbn [factors]. intros H.
  apply Array_sort_In in H.
  exact (proj1 (List.Forall_forall _ _) (deductions_factors reading) f H).
Qed.

(** C7: the snapshot with every field absent scores 100, Healthy, with no
    factors; a parameter that is absent from a snapshot gets no factor
    entry, and its check leaves the running score and the factors
    untouched.  The calculator is a total function of the snapshot: no
    step of it can raise. *)
Theorem missing_data_is_neutral :
  calculateHealthScore no_reading =
    {| score := 100; category := Healthy; factors := [] |} /\
  (forall reading f,
     In f (factors (calculateHealthScore reading)) ->
     field reading (parameter f) <> None) /\
  (forall parameter thresholds maxPenalty t,
     addFactor parameter None thresholds maxPenalty t = t) /\
  (forall reading t, gridVoltage reading = None -> voltageDeviation reading t = t) /\
  (forall reading t, gridFrequency reading = None -> frequencyDeviation reading t = t).
Proof.
  split; [vm_compute; reflexivity|].
  split; [|split; [reflexivity | split]].
  - intros reading f H. destruct (factors_of_reading _ _ H) as [E _].
    rewrite E. discriminate.
  - intros reading t E. unfold voltageDeviation. now rewrite E.
  - intros reading t E. unfold frequencyDeviation. now rewrite E.
Qed.

(** ** More on the health score

    *** The factors, check by check *)

(** The factor that one check pushes, by the level it found. *)
Definition check_factor (parameter : string) (value : option number)
    (l : StatusLevel) (wc : number * number) : list HealthFactor :=
  match value, l with
  | Some v, lvl_warning =>
      [ {| parameter := parameter; value := v; status := status_warning; penalty := fst wc |} ]
  | Some v, lvl_critical =>
      [ {| parameter := parameter; value := v; status := status_critical; penalty := snd wc |} ]
  | _, _ => []
  end.

(** The factors in the order of the checks, before the sort. *)
Definition pushed_factors (reading : SensorReading) : list HealthFactor :=
  check_factor "vibrationRms" (vibrationRms reading)
    (severity vibrationRms_thresholds (vibrationRms reading))
    (vibrationRms_maxPenalty * 0.5, vibrationRms_maxPenalty)
  ++ check_factor "motorSurfaceTemp" (motorSurfaceTemp reading)
    (severity motorSurfaceTemp_thresholds (motorSurfaceTemp reading))
    (motorSurfaceTemp_maxPenalty * 0.5, motorSurfaceTemp_maxPenalty)
  ++ check_factor "bearingTemp" (bearingTemp reading)
    (severity bearingTemp_thresholds (bearingTemp reading))
    (bearingTemp_maxPenalty * 0.5, bearingTemp_maxPenalty)
  ++ check_factor "motorCurrent" (motorCurrent reading)
    (severity motorCurrent_thresholds (motorCurrent reading))
    (motorCurrent_maxPenalty * 0.5, motorCurrent_maxPenalty)
  ++ check_factor "powerFactor" (powerFactor reading)
    (severity powerFactor_thresholds (powerFactor reading))
    (powerFactor_maxPenalty * 0.5, powerFactor_maxPenalty)
  ++ check_factor "gridVoltage" (gridVoltage reading)
    (deviation_severity 220 0.10 0.15 (gridVoltage reading)) (5, 10)
  ++ check_factor "dustDensity" (dustDensity reading)
    (severity dustDensity_thresholds (dustDensity reading))
    (dustDensity_maxPenalty * 0.5, dustDensity_maxPenalty)
  ++ check_factor "gridFrequency" (gridFrequency reading)
    (deviation_severity 50 0.01 0.02 (gridFrequency reading)) (2, 5).

(** The names of the checks in the order in which they run. *)
Definition check_order : list string :=
  [ "vibrationRms"; "motorSurfaceTemp"; "bearingTemp"; "motorCurrent";
    "powerFactor"; "gridVoltage"; "dustDensity"; "gridFrequency" ].

Fixpoint index_of (name : string) (names : list string) : nat :=
  match names with
  | [] => O
  | n :: names => if String.eqb name n then O else S (index_of name names)
  end.

Definition check_index (parameter : string) : nat := index_of parameter check_order.

(** What the order of the factors depends on: the position of the check
    and the penalty. *)
Definition key (f : HealthFactor) : nat * number := (check_index (parameter f), penalty f).

Definition key_entry (i : nat) (l : StatusLevel) (wc : number * number) : list (nat * number) :=
  match charge l wc with
  | Some p => [(i, p)]
  | None => []
  end.

Fixpoint keys_from (i : nat) (levels : list StatusLevel) (table : list (number * number))
    : list (nat * number) :=
  match levels, table with
  | l :: levels, wc :: table => key_entry i l wc ++ keys_from (S i) levels table
  | _, _ => []
  end.

Definition sorted_keys (levels : list StatusLevel) : list (nat * number) :=
  Array_sort (fun a b => snd b - snd a) (keys_from 0 levels penalty_table).

(** [a] is listed before [b]: a higher penalty, or the same penalty and an
    earlier check. *)
Definition ranks_before (a b : nat * number) : bool :=
  (snd a >? snd b) || ((snd a =? snd b) && (fst a <? fst b)%nat).

Fixpoint strongly_sortedb {A} (R : A -> A -> bool) (l : list A) : bool :=
  match l with
  | [] => true
  | x :: l => forallb (R x) l && strongly_sortedb R l
  end.

Fixpoint all_differentb (l : list nat) : bool :=
  match l with
  | [] => true
  | x :: l => negb (existsb (Nat.eqb x) l) && all_differentb l
  end.

Definition order_check (ls : list StatusLevel) : bool :=
  strongly_sortedb ranks_before (sorted_keys ls)
  && all_differentb (map fst (sorted_keys ls)).

Lemma addFactor_factor parameter value thresholds maxPenalty t :
  (maxPenalty >? 0) = true -> (maxPenalty * 0.5 >? 0) = true ->
  tally_factors (addFactor parameter value thresholds maxPenalty t) =
  tally_factors t ++
  check_factor parameter value (severity thresholds value) (maxPenalty * 0.5, maxPenalty).
Proof.
  intros Hmax Hhalf. unfold addFactor, severity, check_factor.
  destruct value as [v|]; [|now rewrite app_nil_r].
  replace (0 >? 0) with false by reflexivity.
  destruct (isLower thresholds);
    [ destruct (v <? critical thresholds), (v <? warning thresholds)
    | destruct (v >? critical thresholds), (v >? warning thresholds) ];
    rewrite ?Hmax, ?Hhalf; cbn [deduct tally_factors fst snd];
    rewrite ?app_nil_r; reflexivity.
Qed.

Lemma voltageDeviation_factor reading t :
  tally_factors (voltageDeviation reading t) =
  tally_factors t ++
  check_factor "gridVoltage" (gridVoltage reading)
    (deviation_severity 220 0.10 0.15 (gridVoltage reading)) (5, 10).
Proof.
  unfold voltageDeviation, deviation_severity, check_factor.
  destruct (gridVoltage reading) as [v|]; [|now rewrite app_nil_r]. cbv zeta.
  repeat match goal with
  | |- context [if ?a <? ?b then _ else _] => destruct (a <? b)
  end; cbn [deduct tally_factors fst snd]; rewrite ?app_nil_r; reflexivity.
Qed.

Lemma frequencyDeviation_factor reading t :
  tally_factors (frequencyDeviation reading t) =
  tally_factors t ++
  check_factor "gridFrequency" (gridFrequency reading)
    (deviation_severity 50 0.01 0.02 (gridFrequency reading)) (2, 5).
Proof.
  unfold frequencyDeviation, deviation_severity, check_factor.
  destruct (gridFrequency reading) as [v|]; [|now rewrite app_nil_r]. cbv zeta.
  repeat match goal with
  | |- context [if ?a <? ?b then _ else _] => destruct (a <? b)
  end; cbn [deduct tally_factors fst snd]; rewrite ?app_nil_r; reflexivity.
Qed.

Lemma deductions_pushed reading :
  tally_factors (deductions reading) = pushed_factors reading.
Proof.
  unfold deductions, pushed_factors. cbv zeta.
  rewrite frequencyDeviation_factor.
  rewrite addFactor_factor by reflexivity.
  rewrite voltageDeviation_factor.
  rewrite !addFactor_factor by reflexivity.
  cbn [tally_factors app]. now rewrite <- !app_assoc.
Qed.

Lemma factors_sorted_pushed reading :
  factors (calculateHealthScore reading) =
  Array_sort (fun a b => penalty b - penalty a) (pushed_factors reading).
Proof. unfold calculateHealthScore. cbn [factors]. now rewrite deductions_pushed. Qed.

Lemma sort_insert_map_key {A B} (f : A -> B) (c : B -> B -> number) x l :
  map f (sort_insert (fun a b => c (f a) (f b)) x l) = sort_insert c (f x) (map f l).
Proof.
  induction l as [|y l IH]; simpl; [reflexivity|].
  destruct (c (f y) (f x) >? 0); simpl; [reflexivity | now rewrite IH].
Qed.

Lemma Array_sort_map_key {A B} (f : A -> B) (c : B -> B -> number) l :
  map f (Array_sort (fun a b => c (f a) (f b)) l) = Array_sort c (map f l).
Proof.
  unfold Array_sort. change (@nil B) with (map f []).
  generalize (@nil A) as acc. induction l as [|x l IH]; intros acc; simpl; [reflexivity|].
  now rewrite IH, sort_insert_map_key.
Qed.

Lemma check_factor_key parameter value l wc :
  (value = None -> l = lvl_normal) ->
  map key (check_factor parameter value l wc) = key_entry (check_index parameter) l wc.
Proof.
  intros H. unfold check_factor, key_entry, charge.
  destruct value as [v|]; [destruct l; reflexivity|].
  now rewrite (H eq_refl).
Qed.

Lemma severity_absent thresholds : severity thresholds None = lvl_normal.
Proof. reflexivity. Qed.

Lemma pushed_keys reading :
  map key (pushed_factors reading) = keys_from 0 (severities reading) penalty_table.
Proof.
  unfold pushed_factors, severities, penalty_table. rewrite !map_app.
  rewrite !check_factor_key
    by (unfold severity, deviation_severity; now intros ->).
  cbn [keys_from]. now rewrite app_nil_r.
Qed.

Lemma factors_keys reading :
  map key (factors (calculateHealthScore reading)) = sorted_keys (severities reading).
Proof.
  rewrite factors_sorted_pushed. unfold sorted_keys. rewrite <- pushed_keys.
  apply (Array_sort_map_key key (fun a b => snd b - snd a)).
Qed.

Lemma strongly_sortedb_map {A B} (R : B -> B -> bool) (k : A -> B) l :
  strongly_sortedb R (map k l) = true ->
  StronglySorted (fun a b => R (k a) (k b) = true) l.
Proof.
  induction l as [|x l IH]; simpl; [constructor|].
  intros H. apply andb_prop in H as [Hx Hl].
  constructor; [now apply IH|].
  rewrite forallb_forall in Hx. apply List.Forall_forall.
  intros y Hy. apply Hx. now apply in_map.
Qed.

Lemma all_differentb_NoDup l : all_differentb l = true -> List.NoDup l.
Proof.
  induction l as [|x l IH]; simpl; [constructor|].
  intros H. apply andb_prop in H as [Hx Hl].
  constructor; [|now apply IH].
  intros Hin. apply negb_true_iff in Hx.
  assert (existsb (Nat.eqb x) l = true); [|congruence].
  apply existsb_exists. exists x. split; [exact Hin | apply Nat.eqb_refl].
Qed.

Lemma order_check_all : forallb order_check (all_levels 8) = true.
Proof. vm_cast_no_check (eq_refl true). Qed.

(** X1: the returned factors are listed by falling penalty, factors with
    the same penalty in the order in which their checks run, and no
    parameter is listed twice. *)
Theorem factors_ranked_by_penalty reading :
  let fs := factors (calculateHealthScore reading) in
  StronglySorted (fun f g => ranks_before (key f) (key g) = true) fs /\
  List.NoDup (map parameter fs).
Proof.
  cbv zeta.
  pose proof (by_levels _ order_check_all reading) as H.
  unfold order_check in H. apply andb_prop in H as [Hsorted Hnodup].
  rewrite <- factors_keys in Hsorted, Hnodup.
  split; [now apply strongly_sortedb_map|].
  apply all_differentb_NoDup in Hnodup.
  rewrite List.map_map in Hnodup. cbn [key fst] in Hnodup.
  rewrite <- (List.map_map parameter check_index) in Hnodup.
  now apply List.NoDup_map_inv in Hnodup.
Qed.

(** What the check of a parameter deducts at the warning and at the
    critical level. *)
Definition deduction_of (parameter : string) : number * number :=
  nth (check_index parameter) penalty_table (0, 0).

(** X2: every returned factor belongs to one of the eight checks; its
    status is the Warning or the Critical one, never Normal, and its
    penalty is what that check deducts at that level. *)
Theorem factor_status_and_penalty reading f :
  In f (factors (calculateHealthScore reading)) ->
  In (parameter f) check_order /\
  (status f = status_warning /\ penalty f = fst (deduction_of (parameter f)) \/
   status f = status_critical /\ penalty f = snd (deduction_of (parameter f))).
Proof.
  rewrite factors_sorted_pushed. intros H. apply Array_sort_In in H.
  unfold pushed_factors in H.
  repeat (apply in_app_or in H as [H | H]);
    unfold check_factor in H;
    repeat match type of H with
    | In _ (match ?v with Some _ => _ | None => _ end) => destruct v
    | In _ (match ?l with lvl_normal => _ | lvl_warning => _ | lvl_critical => _ end) =>
        destruct l
    end;
    try (destruct H as [<- | []]);
    try (destruct H);
    (split; [cbn; tauto|]); cbn [parameter status penalty fst snd];
    first [left; split; reflexivity | right; split; reflexivity].
Qed.

Lemma factor_status_and_penalty_witness :
  In "vibrationRms" check_order /\
  (status_critical = status_warning /\ 25 = fst (deduction_of "vibrationRms") \/
   status_critical = status_critical /\ 25 = snd (deduction_of "vibrationRms")).
Proof.
  exact (factor_status_and_penalty example_reading
           {| parameter := "vibrationRms"; value := 5.0;
              status := status_critical; penalty := 25 |}
           (or_introl eq_refl)).
Defined.

Lemma sort_insert_length {A} (c : A -> A -> number) x l :
  length (sort_insert c x l) = S (length l).
Proof.
  induction l as [|y l IH]; simpl; [reflexivity|].
  destruct (c y x >? 0); simpl; [reflexivity | now rewrite IH].
Qed.

Lemma Array_sort_length {A} (c : A -> A -> number) l :
  length (Array_sort c l) = length l.
Proof.
  unfold Array_sort.
  assert (G : forall acc,
            length (fold_left (fun sorted x => sort_insert c x sorted) l acc) =
            (length acc + length l)%nat).
  { induction l as [|x l IH]; intros acc; simpl; [lia|].
    rewrite IH, sort_insert_length. lia. }
  now rewrite G.
Qed.

Lemma factors_count reading :
  length (factors (calculateHealthScore reading)) =
  length (snd (books (severities reading))).
Proof.
  destruct (result_by_levels reading) as (_ & _ & H).
  rewrite <- (length_map penalty), H. apply Array_sort_length.
Qed.

(** The running score is 100 exactly when nothing was deducted, and at
    least 75 when at most one deduction was made. *)
Definition deduction_count_check (ls : list StatusLevel) : bool :=
  let n := length (snd (books ls)) in
  Bool.eqb (PrimFloat.Leibniz.eqb (raw_score ls) 100) (n =? 0)%nat
  && implb (n <=? 1)%nat (raw_score ls >=? 75).

(** Rounding keeps a score of 100 apart from the others; from a running
    score of 75 on the result is at least 75 and not Critical. *)
Definition level_check (o : number * (number * number)) : bool :=
  let '(raw, (b, s)) := o in
  Bool.eqb (PrimFloat.Leibniz.eqb s 100) (PrimFloat.Leibniz.eqb raw 100)
  && implb (raw >=? 75) ((s >=? 75) && negb (category_eqb (categorize b) Critical)).

Lemma deduction_count_check_all : forallb deduction_count_check (all_levels 8) = true.
Proof. vm_cast_no_check (eq_refl true). Qed.

Lemma level_check_all : forallb level_check outcomes = true.
Proof. vm_cast_no_check (eq_refl true). Qed.

Lemma Leibniz_eqb_iff (x y : number) : PrimFloat.Leibniz.eqb x y = true <-> x = y.
Proof. apply FloatAxioms.Leibniz.eqb_spec. Qed.

(** X3: the returned score is 100 exactly when no factor is returned. *)
Theorem perfect_score_iff_no_factor reading :
  score (calculateHealthScore reading) = 100 <->
  factors (calculateHealthScore reading) = [].
Proof.
  rewrite <- length_zero_iff_nil, factors_count.
  rewrite (proj1 (result_by_levels reading)).
  pose proof (by_levels _ deduction_count_check_all reading) as H1.
  pose proof (on_outcomes _ level_check_all _ (severities_length reading)) as H2.
  unfold deduction_count_check in H1. unfold level_check, outcome in H2.
  cbv zeta in H1, H2. fold (final_score (severities reading)) in H2.
  apply andb_prop in H1 as [H1 _]. apply andb_prop in H2 as [H2 _].
  apply Bool.eqb_prop in H1, H2.
  rewrite <- Leibniz_eqb_iff, H2, H1. apply Nat.eqb_eq.
Qed.

(** X4: a snapshot with at most one factor scores at least 75 and is
    never Critical. *)
Theorem single_factor_never_critical reading :
  (length (factors (calculateHealthScore reading)) <= 1)%nat ->
  (score (calculateHealthScore reading) >=? 75) = true /\
  category (calculateHealthScore reading) <> Critical.
Proof.
  rewrite factors_count. intros Hlen.
  destruct (result_by_levels reading) as (-> & -> & _).
  pose proof (by_levels _ deduction_count_check_all reading) as H1.
  pose proof (on_outcomes _ level_check_all _ (severities_length reading)) as H2.
  unfold deduction_count_check in H1. unfold level_check, outcome in H2.
  cbv zeta in H1, H2. fold (final_score (severities reading)) in H2.
  apply andb_prop in H1 as [_ H1]. apply andb_prop in H2 as [_ H2].
  apply Nat.leb_le in Hlen. rewrite Hlen in H1. cbn [implb] in H1.
  rewrite H1 in H2. cbn [implb] in H2. apply andb_prop in H2 as [Hs Hc].
  split; [exact Hs|]. intros E. unfold raw_score in Hc. rewrite E in Hc. discriminate Hc.
Qed.

Lemma single_factor_never_critical_witness :
  (score (calculateHealthScore (with_motorSurfaceTemp 20 example_reading)) >=? 75) = true /\
  category (calculateHealthScore (with_motorSurfaceTemp 20 example_reading)) <> Critical.
Proof.
  apply single_factor_never_critical. vm_compute. lia.
Defined.

(** *** Inside the limits, and NaN *)

(** A present value is not beyond the warning limit of its check. *)
Definition within (thresholds : Thresholds) (value : option number) : bool :=
  match value with
  | None => true
  | Some v =>
      if isLower thresholds then negb (v <? warning thresholds)
      else negb (v >? warning thresholds)
  end.

Definition deviation_within (nominal warn : number) (value : option number) : bool :=
  match value with
  | None => true
  | Some v => negb (Math_abs (v - nominal) / nominal >? warn)
  end.

Definition within_limits (reading : SensorReading) : bool :=
  within vibrationRms_thresholds (vibrationRms reading)
  && within motorSurfaceTemp_thresholds (motorSurfaceTemp reading)
  && within bearingTemp_thresholds (bearingTemp reading)
  && within motorCurrent_thresholds (motorCurrent reading)
  && within powerFactor_thresholds (powerFactor reading)
  && deviation_within 220 0.10 (gridVoltage reading)
  && within dustDensity_thresholds (dustDensity reading)
  && deviation_within 50 0.01 (gridFrequency reading).

(** The snapshot that sits on every warning limit. *)
Definition on_the_limits : SensorReading :=
  {| gridVoltage := Some 242; motorCurrent := Some 4.6; power := None;
     powerFactor := Some 0.85; gridFrequency := Some 50.5;
     vibrationRms := Some 2.8; vibrationPeakG := None;
     motorSurfaceTemp := Some 70; bearingTemp := Some 65;
     ambientTemp := None; dustDensity := Some 50 |}.

(** A [NaN] value read as an absent one. *)
Definition drop_nan (value : option number) : option number :=
  match value with
  | Some v => if is_nan v then None else Some v
  | None => None
  end.

Definition without_nans (r : SensorReading) : SensorReading :=
  {| gridVoltage := drop_nan (gridVoltage r); motorCurrent := drop_nan (motorCurrent r);
     power := drop_nan (power r); powerFactor := drop_nan (powerFactor r);
     gridFrequency := drop_nan (gridFrequency r);
     vibrationRms := drop_nan (vibrationRms r);
     vibrationPeakG := drop_nan (vibrationPeakG r);
     motorSurfaceTemp := drop_nan (motorSurfaceTemp r);
     bearingTemp := drop_nan (bearingTemp r);
     ambientTemp := drop_nan (ambientTemp r); dustDensity := drop_nan (dustDensity r) |}.

Lemma severity_normal_within thresholds value :
  (if isLower thresholds then critical thresholds <=? warning thresholds
   else warning thresholds <=? critical thresholds) = true ->
  severity thresholds value = lvl_normal <-> within thresholds value = true.
Proof.
  intros Hord. unfold severity, within. destruct value as [v|]; [|tauto].
  destruct (isLower thresholds).
  - destruct (v <? critical thresholds) eqn:Hc.
    + rewrite (ltb_leb_trans _ _ _ Hc Hord). split; discriminate.
    + destruct (v <? warning thresholds); split; (discriminate || reflexivity).
  - destruct (v >? critical thresholds) eqn:Hc.
    + rewrite (leb_ltb_trans _ _ _ Hord Hc). split; discriminate.
    + destruct (v >? warning thresholds); split; (discriminate || reflexivity).
Qed.

Lemma deviation_normal_within nominal warn crit value :
  (warn <=? crit) = true ->
  deviation_severity nominal warn crit value = lvl_normal <->
  deviation_within nominal warn value = true.
Proof.
  intros Hord. unfold deviation_severity, deviation_within.
  destruct value as [v|]; [|tauto]. cbv zeta.
  destruct (_ >? crit) eqn:Hc.
  - rewrite (leb_ltb_trans _ _ _ Hord Hc). split; discriminate.
  - destruct (_ >? warn); split; (discriminate || reflexivity).
Qed.

Lemma check_factor_nil parameter value l wc :
  (value = None -> l = lvl_normal) ->
  check_factor parameter value l wc = [] <-> l = lvl_normal.
Proof.
  intros H. unfold check_factor. destruct value as [v|].
  - destruct l; split; (discriminate || reflexivity).
  - rewrite (H eq_refl). tauto.
Qed.

(** X5: no factor is returned exactly when no present value is beyond
    the warning limit of its check; a value that sits on its limit is
    inside. *)
Theorem no_factor_iff_within_limits reading :
  factors (calculateHealthScore reading) = [] <-> within_limits reading = true.
Proof.
  rewrite <- length_zero_iff_nil, factors_sorted_pushed, Array_sort_length,
    length_zero_iff_nil.
  unfold pushed_factors, within_limits.
  rewrite !app_nil, !andb_true_iff.
  rewrite !check_factor_nil by (unfold severity, deviation_severity; now intros ->).
  rewrite !severity_normal_within by reflexivity.
  rewrite !deviation_normal_within by reflexivity.
  tauto.
Qed.

Example on_the_limits_is_perfect :
  within_limits on_the_limits = true /\
  calculateHealthScore on_the_limits = {| score := 100; category := Healthy; factors := [] |}.
Proof. split; vm_compute; reflexivity. Qed.

Lemma addFactor_nan parameter x thresholds maxPenalty t :
  is_nan x = true -> addFactor parameter (Some x) thresholds maxPenalty t = t.
Proof.
  intros Hx. unfold addFactor.
  rewrite !(nan_not_gt x _ Hx), !(nan_not_lt x _ Hx).
  replace (0 >? 0) with false by reflexivity. now destruct (isLower thresholds).
Qed.

Lemma addFactor_drop_nan parameter value thresholds maxPenalty t :
  addFactor parameter (drop_nan value) thresholds maxPenalty t =
  addFactor parameter value thresholds maxPenalty t.
Proof.
  destruct value as [x|]; [|reflexivity]. cbn [drop_nan].
  destruct (is_nan x) eqn:Hx; [|reflexivity]. now rewrite addFactor_nan.
Qed.

(** X6: a [NaN] value counts as an absent one: the calculator returns
    the same result when every [NaN] field is removed from the snapshot. *)
Theorem nan_counts_as_absent reading :
  calculateHealthScore (without_nans reading) = calculateHealthScore reading.
Proof.
  unfold calculateHealthScore, deductions, without_nans.
  cbn [vibrationRms motorSurfaceTemp bearingTemp motorCurrent powerFactor dustDensity].
  rewrite !addFactor_drop_nan.
  assert (Hv : forall t,
    voltageDeviation
      {| gridVoltage := drop_nan (gridVoltage reading);
         motorCurrent := drop_nan (motorCurrent reading);
         power := drop_nan (power reading); powerFactor := drop_nan (powerFactor reading);
         gridFrequency := drop_nan (gridFrequency reading);
         vibrationRms := drop_nan (vibrationRms reading);
         vibrationPeakG := drop_nan (vibrationPeakG reading);
         motorSurfaceTemp := drop_nan (motorSurfaceTemp reading);
         bearingTemp := drop_nan (bearingTemp reading);
         ambientTemp := drop_nan (ambientTemp reading);
         dustDensity := drop_nan (dustDensity reading) |} t =
    voltageDeviation reading t).
  { intros t. unfold voltageDeviation. cbn [gridVoltage].
    destruct (gridVoltage reading) as [x|]; [|reflexivity]. cbn [drop_nan].
    destruct (is_nan x) eqn:Hx; [|reflexivity]. cbv zeta.
    now rewrite !(nan_not_gt _ _ (nan_deviation x 220 Hx)). }
  assert (Hf : forall t,
    frequencyDeviation
      {| gridVoltage := drop_nan (gridVoltage reading);
         motorCurrent := drop_nan (motorCurrent reading);
         power := drop_nan (power reading); powerFactor := drop_nan (powerFactor reading);
         gridFrequency := drop_nan (gridFrequency reading);
         vibrationRms := drop_nan (vibrationRms reading);
         vibrationPeakG := drop_nan (vibrationPeakG reading);
         motorSurfaceTemp := drop_nan (motorSurfaceTemp reading);
         bearingTemp := drop_nan (bearingTemp reading);
         ambientTemp := drop_nan (ambientTemp reading);
         dustDensity := drop_nan (dustDensity reading) |} t =
    frequencyDeviation reading t).
  { intros t. unfold frequencyDeviation. cbn [gridFrequency].
    destruct (gridFrequency reading) as [x|]; [|reflexivity]. cbn [drop_nan].
    destruct (is_nan x) eqn:Hx; [|reflexivity]. cbv zeta.
    now rewrite !(nan_not_gt _ _ (nan_deviation x 50 Hx)). }
  now rewrite Hv, Hf.
Qed.

(** X7: the values matter through their bands only: two snapshots whose
    eight checks find the same levels get the same score, the same
    category, and factors of the same checks with the same penalties. *)
Theorem same_levels_same_score r1 r2 :
  severities r1 = severities r2 ->
  score (calculateHealthScore r1) = score (calculateHealthScore r2) /\
  category (calculateHealthScore r1) = category (calculateHealthScore r2) /\
  map key (factors (calculateHealthScore r1)) = map key (factors (calculateHealthScore r2)).
Proof.
  intros H. rewrite !factors_keys.
  destruct (result_by_levels r1) as (-> & -> & _).
  destruct (result_by_levels r2) as (-> & -> & _).
  now rewrite H.
Qed.

Lemma same_levels_same_score_witness :
  score (calculateHealthScore (with_vibrationRms 3 example_reading)) =
  score (calculateHealthScore (with_vibrationRms 4.5 example_reading)).
Proof.
  exact (proj1 (same_levels_same_score (with_vibrationRms 3 example_reading)
                  (with_vibrationRms 4.5 example_reading) eq_refl)).
Defined.

(** *** The colour of a category *)

(** The category as the string the source uses. *)
Definition category_name (c : Category) : string :=
  match c with
  | Healthy => "Healthy"
  | At_Risk => "At Risk"
  | Critical => "Critical"
  end.

(** Get health score category color *)
Definition getHealthCategoryColor (category : string) : string :=
  if String.eqb category "Healthy" then "text-status-normal"
  else if String.eqb category "At Risk" then "text-status-warning"
  else if String.eqb category "Critical" then "text-status-critical"
  else "text-gray-500".

(** Get health score background color *)
Definition getHealthCategoryBgColor (category : string) : string :=
  if String.eqb category "Healthy" then "bg-status-normal"
  else if String.eqb category "At Risk" then "bg-status-warning"
  else if String.eqb category "Critical" then "bg-status-critical"
  else "bg-gray-500".

(** X8: for the category of any result the two colour functions never
    fall back to grey, and the colour follows the band of the returned
    score: normal from 80, warning from 60, critical below. *)
Theorem category_colour_follows_score reading :
  let r := calculateHealthScore reading in
  let band (normal warning critical : string) :=
    if score r >=? 80 then normal
    else if score r >=? 60 then warning
    else critical in
  getHealthCategoryColor (category_name (category r)) =
    band "text-status-normal" "text-status-warning" "text-status-critical" /\
  getHealthCategoryBgColor (category_name (category r)) =
    band "bg-status-normal" "bg-status-warning" "bg-status-critical" /\
  getHealthCategoryColor (category_name (category r)) <> "text-gray-500" /\
  getHealthCategoryBgColor (category_name (category r)) <> "bg-gray-500".
Proof.
  cbv zeta. destruct (result_by_levels reading) as (-> & -> & _).
  pose proof (on_outcomes _ category_check_all _ (severities_length reading)) as H.
  unfold category_check, outcome in H. cbv zeta in H.
  fold (final_score (severities reading)) in H. unfold raw_score in H.
  apply andb_prop in H as [H H3]. apply andb_prop in H as [H1 H2].
  apply Bool.eqb_prop in H1, H2, H3.
  destruct (categorize _); cbn [category_eqb category_name] in *; rewrite H1.
  - repeat split; discriminate.
  - apply andb_prop in H2 as [H2 _]. rewrite H2. repeat split; discriminate.
  - rewrite (ltb_not_leb _ _ H3). repeat split; discriminate.
Qed.

End HealthScore.






(** ** The certainty-factor expert system ([src/app/ai-center/page.tsx]) *)

Module ExpertSystem.
Import JS.
Local Open Scope string_scope.
Local Open Scope list_scope.
Local Open Scope float_scope.

Inductive UserAnswer := No | Sometimes | Yes.

(** The symptom catalog ([lib/expert-system/symptoms]). *)
Record Symptom := {
  id : Z;
  question : string;
  cfExpert : number
}.

Definition symptoms : list Symptom :=
  [ {| id := 1; question := "Motor does not rotate"; cfExpert := 1.0 |};
    {| id := 2; question := "Humming sound is heard"; cfExpert := 0.6 |};
    {| id := 3; question := "Motor rotation is slow"; cfExpert := 0.8 |};
    {| id := 4; question := "Motor heats up quickly"; cfExpert := 0.7 |};
    {| id := 5; question := "Burning smell from motor"; cfExpert := 1.0 |};
    {| id := 6; question := "MCB or fuse trips frequently"; cfExpert := 0.9 |};
    {| id := 7; question := "Excessive vibration"; cfExpert := 0.8 |};
    {| id := 8; question := "Rough or abnormal sound is heard"; cfExpert := 1.0 |};
    {| id := 9; question := "Capacitor is swollen"; cfExpert := 0.9 |};
    {| id := 10; question := "Motor is weak despite normal voltage"; cfExpert := 1.0 |} ].

(** Modelled from the spec: [fuzzyLevelToValue] of
    [lib/expert-system/fuzzyMembership], which is not among the sources;
    the spec fixes the mapping No -> 0.0, Sometimes -> 0.5, Yes -> 1.0. *)
Definition fuzzyLevelToValue (answer : UserAnswer) : number :=
  match answer with
  | No => 0.0
  | Sometimes => 0.5
  | Yes => 1.0
  end.

(** The rule catalog ([lib/expert-system/rules]) is not among the sources
    either: the rules are a parameter of everything below, with the shape
    that [runDiagnosis] reads. *)
Inductive Operator := AND | OR.

Inductive Level := A | B | C.

Record Rule := {
  rule_id : string;
  rule_symptoms : list Z;
  rule_operator : Operator;
  rule_level : Level;
  rule_damage : string;
  rule_solution : string
}.

Record DiagnosisResult := {
  result_id : string;
  level : Level;
  damage : string;
  solution : string;
  cfRule : number
}.

Record Conclusion := {
  percent : number;
  label : string
}.

Definition levelScore (l : Level) : Z :=
  match l with
  | A => 40
  | B => 70
  | C => 100
  end.

Definition getLevelLabel (l : Level) : string :=
  match l with
  | A => "Minor"
  | B => "Moderate"
  | C => "Severe"
  end.

(** [calculateConclusion]: the value handed to [setConclusion].  The sum of
    the weights and [data.length * 100] are integers far below [2^53], so
    they are computed in [Z] and enter the division as exact doubles. *)
Definition calculateConclusion (data : list DiagnosisResult) : option Conclusion :=
  if (length data =? 0)%nat then None
  else
    let totalScore := fold_left (fun sum r => (sum + levelScore (level r))%Z) data 0%Z in
    let percent := (of_Z totalScore / of_Z (Z.of_nat (length data) * 100)) * 100 in
    let label :=
      if percent <=? 40 then "Minor"
      else if percent <=? 70 then "Moderate"
      else "Severe" in
    Some {| percent := toFixed_Number percent 1; label := label |}.

(** The body of [rule.symptoms.forEach]: one pass over a symptom id. *)
Definition collect (answers : gmap Z UserAnswer) (cfValues : list number) (sid : Z)
    : list number :=
  let userAnswer := answers !! sid in
  let expertCF := option_map cfExpert (find (fun s => (id s =? sid)%Z) symptoms) in
  match userAnswer, expertCF with
  | Some userAnswer, Some expertCF =>
      let userCF := fuzzyLevelToValue userAnswer in
      cfValues ++ [userCF * expertCF]
  | _, _ => cfValues
  end.

(** The body of [rules.forEach]: one pass over a rule. *)
Definition diagnose (answers : gmap Z UserAnswer) (output : list DiagnosisResult)
    (rule : Rule) : list DiagnosisResult :=
  let cfValues := fold_left (collect answers) (rule_symptoms rule) [] in
  if (length cfValues =? 0)%nat then output
  else
    let cfRule :=
      match rule_operator rule with
      | OR => Math_max cfValues
      | AND => Math_min cfValues
      end in
    if cfRule >? 0 then
      output ++ [ {| result_id := rule_id rule;
                     level := rule_level rule;
                     damage := rule_damage rule;
                     solution := rule_solution rule;
                     cfRule := toFixed_Number cfRule 2 |} ]
    else output.

(** [runDiagnosis]: the values handed to [setResults] and, through
    [calculateConclusion], to [setConclusion]. *)
Definition runDiagnosis (rules : list Rule) (answers : gmap Z UserAnswer)
    : list DiagnosisResult * option Conclusion :=
  let output := fold_left (diagnose answers) rules [] in
  (output, calculateConclusion output).

(** *** The diagnosis as the specification words it

    The evidence of a rule: for each symptom id it references that has an
    answer (and an entry in the catalog), the fuzzy value of the answer
    times the expert certainty factor of the symptom. *)
Definition evidence (answers : gmap Z UserAnswer) (rule : Rule) : list number :=
  omap (fun sid =>
          a ← answers !! sid;
          s ← find (fun s => (id s =? sid)%Z) symptoms;
          Some (fuzzyLevelToValue a * cfExpert s))
       (rule_symptoms rule).

(** [c] combines the evidence: it is one of the values, the greatest one
    for an OR rule and the least one for an AND rule. *)
Definition combines (op : Operator) (values : list number) (c : number) : Prop :=
  In c values /\
  match op with
  | OR => Forall (fun v => (v <=? c) = true) values
  | AND => Forall (fun v => (c <=? v) = true) values
  end.

Definition result_of (rule : Rule) (cf : number) : DiagnosisResult :=
  {| result_id := rule_id rule; level := rule_level rule;
     damage := rule_damage rule; solution := rule_solution rule; cfRule := cf |}.

(** The results of a catalog, rule by rule: a rule without evidence is
    skipped; a rule with evidence yields a result, carrying the combined
    value rounded to two decimals, exactly when that value is above 0. *)
Inductive Diagnosis (answers : gmap Z UserAnswer) : list Rule -> list DiagnosisResult -> Prop :=
  | diagnosis_done : Diagnosis answers [] []
  | diagnosis_skipped rule rules output :
      evidence answers rule = [] ->
      Diagnosis answers rules output ->
      Diagnosis answers (rule :: rules) output
  | diagnosis_silent rule rules output c :
      combines (rule_operator rule) (evidence answers rule) c ->
      (c >? 0) = false ->
      Diagnosis answers rules output ->
      Diagnosis answers (rule :: rules) output
  | diagnosis_fired rule rules output c :
      combines (rule_operator rule) (evidence answers rule) c ->
      (c >? 0) = true ->
      Diagnosis answers rules output ->
      Diagnosis answers (rule :: rules) (result_of rule (toFixed_Number c 2) :: output).

(** The severity weights by label, and the percent of the conclusion. *)
Definition severity_weight (label : string) : Z :=
  if String.eqb label "Minor" then 40
  else if String.eqb label "Moderate" then 70
  else if String.eqb label "Severe" then 100
  else 0.

Definition severity_percent (data : list DiagnosisResult) : number :=
  let weights := map (fun r => severity_weight (getLevelLabel (level r))) data in
  of_Z (fold_right Z.add 0%Z weights) / of_Z (Z.of_nat (length data) * 100) * 100.

(** The percent of [n] results whose levels lie [k] steps above Minor in
    total (Moderate counts one step, Severe two). *)
Definition level_rank (l : Level) : nat :=
  match l with
  | A => 0
  | B => 1
  | C => 2
  end.

Definition percent_of (n k : nat) : number :=
  of_Z (40 * Z.of_nat n + 30 * Z.of_nat k) / of_Z (Z.of_nat n * 100) * 100.









(** Two rules over the symptoms "Humming sound is heard" (0.6) and "Motor
    does not rotate" (1.0), answered No and Yes. *)
Definition humming_or_stalled (op : Operator) : Rule :=
  {| rule_id := "R"; rule_symptoms := [2; 1]%Z; rule_operator := op;
     rule_level := B; rule_damage := "damage"; rule_solution := "solution" |}.

Definition humming_no_stalled_yes : gmap Z UserAnswer :=
  <[2%Z := No]> (<[1%Z := Yes]> ∅).

(** *** [runDiagnosis] *)

Lemma catalog_product_not_nan a s :
  In s symptoms -> is_nan (fuzzyLevelToValue a * cfExpert s) = false.
Proof.
  unfold symptoms. intros H.
  repeat (destruct H as [<- | H]; [destruct a; reflexivity|]).
  destruct H.
Qed.

#[local] Opaque symptoms.

Lemma collect_evidence answers sids : forall cfValues,
  fold_left (collect answers) sids cfValues =
  cfValues ++ omap (fun sid =>
                      a ← answers !! sid;
                      s ← find (fun s => (id s =? sid)%Z) symptoms;
                      Some (fuzzyLevelToValue a * cfExpert s)) sids.
Proof.
  induction sids as [|sid sids IH]; intros cfValues; simpl.
  - now rewrite app_nil_r.
  - rewrite IH. unfold collect.
    destruct (answers !! sid) as [a|]; simpl; [|reflexivity].
    destruct (find (fun s => (id s =? sid)%Z) symptoms) as [s|]; simpl; [|reflexivity].
    now rewrite <- app_assoc.
Qed.

Lemma evidence_no_nan answers rule : no_nan (evidence answers rule).
Proof.
  unfold evidence, no_nan. induction (rule_symptoms rule) as [|sid sids IH]; simpl.
  - constructor.
  - destruct (answers !! sid) as [a|]; simpl; [|exact IH].
    destruct (find (fun s => (id s =? sid)%Z) symptoms) as [s|] eqn:E; simpl; [|exact IH].
    constructor; [|exact IH].
    apply catalog_product_not_nan. now apply find_some in E.
Qed.

Lemma unanswered_no_evidence answers rule :
  (forall sid, In sid (rule_symptoms rule) -> answers !! sid = None) ->
  evidence answers rule = [].
Proof.
  unfold evidence. induction (rule_symptoms rule) as [|sid sids IH]; intros H; simpl.
  - reflexivity.
  - rewrite (H sid (or_introl eq_refl)). simpl. apply IH.
    intros sid' Hin. apply H. now right.
Qed.

Lemma diagnose_appends answers output rule :
  diagnose answers output rule = output ++ diagnose answers [] rule.
Proof.
  unfold diagnose. cbv zeta.
  destruct (length _ =? 0)%nat; [now rewrite app_nil_r|].
  destruct (_ >? 0); [reflexivity | now rewrite app_nil_r].
Qed.

Lemma fold_diagnose answers rules : forall output,
  fold_left (diagnose answers) rules output =
  output ++ flat_map (diagnose answers []) rules.
Proof.
  induction rules as [|rule rules IH]; intros output; simpl.
  - now rewrite app_nil_r.
  - now rewrite IH, diagnose_appends, <- app_assoc.
Qed.

Lemma combined_value answers rule :
  evidence answers rule <> [] ->
  combines (rule_operator rule) (evidence answers rule)
    match rule_operator rule with
    | OR => Math_max (evidence answers rule)
    | AND => Math_min (evidence answers rule)
    end.
Proof.
  intros Hne. unfold combines. destruct (rule_operator rule).
  - apply Math_min_least; [exact Hne | apply evidence_no_nan].
  - apply Math_max_greatest; [exact Hne | apply evidence_no_nan].
Qed.

(** The combined value is determined up to the sign of a zero; whether it
    is above 0 does not depend on the choice. *)
Lemma combines_same_sign op values c c' :
  combines op values c -> combines op values c' -> (c >? 0) = (c' >? 0).
Proof.
  intros [Hin H] [Hin' H'].
  destruct op; rewrite List.Forall_forall in H, H'.
  - apply leb_antisym_gt; [apply H, Hin' | apply H', Hin].
  - apply leb_antisym_gt; [apply H', Hin | apply H, Hin'].
Qed.

(** C1: for every rule list and every answer mapping, the results of
    [runDiagnosis] are the diagnosis of the specification: the evidence of
    a rule is fuzzy(answer) x expert CF over its answered symptoms, it is
    combined by maximum (OR) or minimum (AND), a rule without evidence, in
    particular one none of whose symptoms is answered, yields nothing, and
    a result with the combined value rounded to 2 decimals is emitted
    exactly when that value is above 0. *)
Theorem runDiagnosis_follows_specification rules answers :
  Diagnosis answers rules (fst (runDiagnosis rules answers)) /\
  (forall rule,
     (forall sid, In sid (rule_symptoms rule) -> answers !! sid = None) ->
     evidence answers rule = []) /\
  (forall op values c c',
     combines op values c -> combines op values c' -> (c >? 0) = (c' >? 0)).
Proof.
  split; [|split; [intros rule; apply unanswered_no_evidence
                  | apply combines_same_sign]].
  unfold runDiagnosis. cbn [fst]. rewrite fold_diagnose. cbn [app].
  induction rules as [|rule rules IH]; simpl; [constructor|].
  unfold diagnose at 1. cbv zeta.
  rewrite collect_evidence. cbn [app]. fold (evidence answers rule).
  destruct (evidence answers rule) as [|v vs] eqn:E.
  - simpl. apply diagnosis_skipped; assumption.
  - cbn [length Nat.eqb].
    assert (Hc := combined_value answers rule). rewrite E in Hc.
    specialize (Hc ltac:(discriminate)).
    destruct (_ >? 0) eqn:Hpos.
    + simpl. eapply diagnosis_fired; rewrite ?E; eassumption.
    + simpl. eapply diagnosis_silent; rewrite ?E; eassumption.
Qed.

(** The two combination examples of the specification: the OR rule fires
    with certainty 1, the AND rule does not fire. *)
Example or_rule_fires_and_rule_does_not :
  fst (runDiagnosis [humming_or_stalled OR] humming_no_stalled_yes) =
    [result_of (humming_or_stalled OR) 1.0] /\
  fst (runDiagnosis [humming_or_stalled AND] humming_no_stalled_yes) = [].
Proof. split; vm_compute; reflexivity. Qed.

(** *** [calculateConclusion] *)

Lemma levelScore_weight l : levelScore l = severity_weight (getLevelLabel l).
Proof. destruct l; reflexivity. Qed.

Lemma totalScore_sum data : forall sum,
  fold_left (fun sum r => (sum + levelScore (level r))%Z) data sum =
  (sum + fold_right Z.add 0
           (map (fun r => severity_weight (getLevelLabel (level r))) data))%Z.
Proof.
  induction data as [|r data IH]; intros sum; simpl.
  - lia.
  - rewrite IH, levelScore_weight. lia.
Qed.

Lemma calculateConclusion_percent data :
  data <> [] ->
  calculateConclusion data =
  Some {| percent := toFixed_Number (severity_percent data) 1;
          label := if severity_percent data <=? 40 then "Minor"
                   else if severity_percent data <=? 70 then "Moderate"
                   else "Severe" |}.
Proof.
  intros Hne. unfold calculateConclusion, severity_percent.
  destruct data as [|r data]; [congruence|].
  cbn [length Nat.eqb]. cbv zeta. now rewrite totalScore_sum.
Qed.

Lemma label_by_percent data :
  data <> [] ->
  exists c, calculateConclusion data = Some c /\
    let p := severity_percent data in
    percent c = toFixed_Number p 1 /\
    (label c = "Minor" <-> (p <=? 40) = true) /\
    (label c = "Moderate" <-> (p >? 40) = true /\ (p <=? 70) = true) /\
    (label c = "Severe" <->
       (p <=? 40) = false /\ ~ ((p >? 40) = true /\ (p <=? 70) = true)).
Proof.
  intros Hne. rewrite (calculateConclusion_percent _ Hne).
  eexists. split; [reflexivity|]. cbv zeta. cbn [percent label].
  set (p := severity_percent data).
  split; [reflexivity|].
  destruct (p <=? 40) eqn:H40; [|destruct (p <=? 70) eqn:H70].
  - rewrite (leb_not_ltb _ _ H40). intuition discriminate.
  - destruct (leb_not_nan _ _ H70) as [Hp _].
    rewrite (not_leb_ltb p 40 Hp eq_refl H40). intuition discriminate.
  - intuition discriminate.
Qed.








(** ** More on the diagnosis

    *** Which rules fire *)

(** The answers that a rule takes into account, with their symptoms: those
    of the symptom ids it references that are answered and in the catalog. *)
Definition answered (answers : gmap Z UserAnswer) (rule : Rule)
    : list (UserAnswer * Symptom) :=
  omap (fun sid =>
          a ← answers !! sid;
          s ← find (fun s => (id s =? sid)%Z) symptoms;
          Some (a, s))
       (rule_symptoms rule).

Definition affirmed (a : UserAnswer) : bool :=
  match a with
  | No => false
  | Sometimes | Yes => true
  end.

(** An OR rule needs one affirmed answer; an AND rule needs an answer and
    no "No" among the answers it has. *)
Definition fires (op : Operator) (given : list UserAnswer) : bool :=
  match op with
  | OR => existsb affirmed given
  | AND => negb (length given =? 0)%nat && forallb affirmed given
  end.

Definition fired (answers : gmap Z UserAnswer) (rule : Rule) : bool :=
  fires (rule_operator rule) (map fst (answered answers rule)).

Definition product (p : UserAnswer * Symptom) : number :=
  fuzzyLevelToValue (fst p) * cfExpert (snd p).

(** The combined value of a rule, before the rounding. *)
Definition combined (answers : gmap Z UserAnswer) (rule : Rule) : number :=
  match rule_operator rule with
  | OR => Math_max (evidence answers rule)
  | AND => Math_min (evidence answers rule)
  end.

Definition all_no : gmap Z UserAnswer :=
  <[1%Z := No]> (<[2%Z := No]> (<[3%Z := No]> ∅)).

#[local] Transparent symptoms.

Lemma catalog_product a s :
  In s symptoms ->
  (fuzzyLevelToValue a * cfExpert s >? 0) = affirmed a /\
  (fuzzyLevelToValue a * cfExpert s <=? 1) = true /\
  toFixed_Number (fuzzyLevelToValue a * cfExpert s) 2 = fuzzyLevelToValue a * cfExpert s.
Proof.
  unfold symptoms. intros H.
  repeat (destruct H as [<- | H]; [destruct a; vm_compute; repeat split|]).
  destruct H.
Qed.

#[local] Opaque symptoms.

Lemma evidence_answered answers rule :
  evidence answers rule = map product (answered answers rule).
Proof.
  unfold evidence, answered. induction (rule_symptoms rule) as [|sid sids IH];
    cbn [omap list_omap]; [reflexivity|].
  destruct (answers !! sid) as [a|]; cbn; [|exact IH].
  destruct (find (fun s => (id s =? sid)%Z) symptoms) as [s|]; cbn; [|exact IH].
  now rewrite IH.
Qed.

Lemma answered_in_catalog answers rule :
  Forall (fun p => In (snd p) symptoms) (answered answers rule).
Proof.
  unfold answered. induction (rule_symptoms rule) as [|sid sids IH];
    cbn [omap list_omap]; [constructor|].
  destruct (answers !! sid) as [a|]; cbn; [|exact IH].
  destruct (find (fun s => (id s =? sid)%Z) symptoms) as [s|] eqn:E; cbn; [|exact IH].
  constructor; [|exact IH]. now apply find_some in E.
Qed.

Lemma positive_products pairs :
  Forall (fun p => In (snd p) symptoms) pairs ->
  existsb (fun v => v >? 0) (map product pairs) = existsb affirmed (map fst pairs) /\
  forallb (fun v => v >? 0) (map product pairs) = forallb affirmed (map fst pairs).
Proof.
  induction 1 as [|[a s] pairs Hs _ [IH1 IH2]]; [split; reflexivity|].
  cbn [map existsb forallb fst]. unfold product at 1 3. cbn [fst snd].
  rewrite (proj1 (catalog_product a s Hs)), IH1, IH2. split; reflexivity.
Qed.

Lemma Math_max_positive values :
  values <> [] -> no_nan values ->
  (Math_max values >? 0) = existsb (fun v => v >? 0) values.
Proof.
  intros Hne Hv. destruct (Math_max_greatest values Hne Hv) as [Hin Hall].
  rewrite List.Forall_forall in Hall.
  destruct (existsb (fun v => v >? 0) values) eqn:E.
  - apply existsb_exists in E as (v & Hvin & Hpos).
    exact (ltb_leb_trans _ _ _ Hpos (Hall v Hvin)).
  - destruct (Math_max values >? 0) eqn:Hm; [|reflexivity].
    assert (existsb (fun v => v >? 0) values = true); [|congruence].
    apply existsb_exists. eauto.
Qed.

Lemma Math_min_positive values :
  values <> [] -> no_nan values ->
  (Math_min values >? 0) = forallb (fun v => v >? 0) values.
Proof.
  intros Hne Hv. destruct (Math_min_least values Hne Hv) as [Hin Hall].
  rewrite List.Forall_forall in Hall.
  destruct (forallb (fun v => v >? 0) values) eqn:E.
  - rewrite forallb_forall in E. now apply E.
  - destruct (Math_min values >? 0) eqn:Hm; [|reflexivity].
    assert (forallb (fun v => v >? 0) values = true); [|congruence].
    apply forallb_forall. intros v Hvin.
    exact (ltb_leb_trans _ _ _ Hm (Hall v Hvin)).
Qed.

Lemma diagnose_fired answers rule :
  diagnose answers [] rule =
  if fired answers rule
  then [result_of rule (toFixed_Number (combined answers rule) 2)]
  else [].
Proof.
  unfold diagnose, fired, fires, combined. cbv zeta.
  rewrite collect_evidence. cbn [app]. fold (evidence answers rule).
  pose proof (evidence_no_nan answers rule) as Hnan.
  pose proof (positive_products _ (answered_in_catalog answers rule)) as [Hex Hall].
  rewrite <- evidence_answered in Hex, Hall.
  assert (Hlen : length (map fst (answered answers rule)) = length (evidence answers rule))
    by now rewrite evidence_answered, !length_map.
  rewrite <- Hex, <- Hall, Hlen.
  destruct (evidence answers rule) as [|v vs] eqn:E.
  - now destruct (rule_operator rule).
  - cbn [length Nat.eqb negb andb].
    destruct (rule_operator rule).
    + rewrite Math_min_positive by (assumption || discriminate).
      now destruct (forallb _ _).
    + rewrite Math_max_positive by (assumption || discriminate).
      now destruct (existsb _ _).
Qed.

Lemma combined_in_evidence answers rule :
  fired answers rule = true -> In (combined answers rule) (evidence answers rule).
Proof.
  intros Hf. assert (Hne : evidence answers rule <> []).
  { intros E. unfold fired, fires in Hf. rewrite evidence_answered in E.
    apply map_eq_nil in E. rewrite E in Hf. destruct (rule_operator rule); discriminate Hf. }
  unfold combined. destruct (rule_operator rule).
  - apply Math_min_least; [exact Hne | apply evidence_no_nan].
  - apply Math_max_greatest; [exact Hne | apply evidence_no_nan].
Qed.

Lemma evidence_value answers rule v :
  In v (evidence answers rule) ->
  (v <=? 1) = true /\ toFixed_Number v 2 = v /\ (v >? 0) = true \/ (v >? 0) = false.
Proof.
  rewrite evidence_answered. intros H. apply in_map_iff in H as ([a s] & <- & Hin).
  pose proof (answered_in_catalog answers rule) as Hcat.
  rewrite List.Forall_forall in Hcat. specialize (Hcat _ Hin). cbn [snd] in Hcat.
  destruct (catalog_product a s Hcat) as (Hpos & Hle & Hfix). unfold product. cbn [fst snd].
  destruct (affirmed a); [left | right]; auto.
Qed.

Lemma results_by_rule answers rules :
  fst (runDiagnosis rules answers) = flat_map (diagnose answers []) rules.
Proof. unfold runDiagnosis. cbn [fst]. now rewrite fold_diagnose. Qed.

(** X9: the results are those of the rules that fire, one per rule and in
    the order of the catalog, where an OR rule fires when one of its
    answered symptoms is answered Sometimes or Yes and an AND rule when it
    has an answered symptom and none answered No (symptoms without an
    answer do not count against it).  Each result copies its rule and
    carries one of the rule's evidence values, unchanged by the rounding. *)
Theorem results_are_the_fired_rules rules answers :
  Forall2 (fun r rule =>
             r = result_of rule (cfRule r) /\ In (cfRule r) (evidence answers rule))
          (fst (runDiagnosis rules answers)) (List.filter (fired answers) rules).
Proof.
  rewrite results_by_rule.
  induction rules as [|rule rules IH]; cbn [flat_map List.filter]; [constructor|].
  rewrite diagnose_fired. destruct (fired answers rule) eqn:Hf; cbn [app]; [|exact IH].
  constructor; [|exact IH]. cbn [cfRule result_of].
  pose proof (combined_in_evidence answers rule Hf) as Hin.
  destruct (evidence_value answers rule _ Hin) as [(_ & -> & _) | Hz].
  - split; [reflexivity | exact Hin].
  - exfalso. clear IH. pose proof (diagnose_fired answers rule) as Hd.
    rewrite Hf in Hd. unfold diagnose in Hd. cbv zeta in Hd.
    rewrite collect_evidence in Hd. cbn [app] in Hd. fold (evidence answers rule) in Hd.
    fold (combined answers rule) in Hd. rewrite Hz in Hd.
    destruct (length _ =? 0)%nat; discriminate Hd.
Qed.

(** X10: every certainty factor that [runDiagnosis] reports lies above 0
    and at most at 1. *)
Theorem reported_certainty_in_range rules answers :
  Forall (fun r => (cfRule r >? 0) = true /\ (cfRule r <=? 1) = true)
         (fst (runDiagnosis rules answers)).
Proof.
  rewrite results_by_rule.
  induction rules as [|rule rules IH]; cbn [flat_map]; [constructor|].
  rewrite diagnose_fired. destruct (fired answers rule) eqn:Hf; cbn [app]; [|exact IH].
  constructor; [|exact IH]. cbn [cfRule result_of].
  pose proof (combined_in_evidence answers rule Hf) as Hin.
  destruct (evidence_value answers rule _ Hin) as [(Hle & -> & Hpos) | Hz].
  - split; assumption.
  - exfalso. clear IH. pose proof (diagnose_fired answers rule) as Hd.
    rewrite Hf in Hd. unfold diagnose in Hd. cbv zeta in Hd.
    rewrite collect_evidence in Hd. cbn [app] in Hd. fold (evidence answers rule) in Hd.
    fold (combined answers rule) in Hd. rewrite Hz in Hd.
    destruct (length _ =? 0)%nat; discriminate Hd.
Qed.

Lemma nothing_affirmed answers rule :
  (forall sid a, answers !! sid = Some a -> a = No) -> fired answers rule = false.
Proof.
  intros Hno. unfold fired, answered.
  assert (H : forallb (fun a => negb (affirmed a))
                (map fst (omap (fun sid =>
                   a ← answers !! sid;
                   s ← find (fun s => (id s =? sid)%Z) symptoms;
                   Some (a, s)) (rule_symptoms rule))) = true).
  { induction (rule_symptoms rule) as [|sid sids IH]; cbn [omap list_omap]; [reflexivity|].
    destruct (answers !! sid) as [a|] eqn:E; cbn; [|exact IH].
    destruct (find (fun s => (id s =? sid)%Z) symptoms) as [s|]; cbn; [|exact IH].
    rewrite (Hno sid a E). exact IH. }
  revert H. generalize (map fst (omap (fun sid =>
                   a ← answers !! sid;
                   s ← find (fun s => (id s =? sid)%Z) symptoms;
                   Some (a, s)) (rule_symptoms rule))).
  intros given H. unfold fires. destruct (rule_operator rule).
  - destruct given as [|a given]; [reflexivity|]. cbn in *.
    destruct (affirmed a); [discriminate H | reflexivity].
  - induction given as [|a given IH]; [reflexivity|]. cbn in *.
    destruct (affirmed a); [discriminate H | now apply IH].
Qed.

(** X11: when no symptom is answered, or every answer is "No", no rule
    fires whatever the catalog is: no result and no conclusion. *)
Theorem all_no_gives_no_diagnosis rules answers :
  (forall sid a, answers !! sid = Some a -> a = No) ->
  runDiagnosis rules answers = ([], None).
Proof.
  intros Hno.
  assert (H : fst (runDiagnosis rules answers) = []).
  { rewrite results_by_rule. induction rules as [|rule rules IH]; [reflexivity|].
    cbn [flat_map]. now rewrite diagnose_fired, nothing_affirmed, IH. }
  unfold runDiagnosis in *. cbn [fst] in H. cbv zeta. now rewrite H.
Qed.

Lemma all_no_gives_no_diagnosis_witness :
  runDiagnosis [humming_or_stalled OR; humming_or_stalled AND] all_no = ([], None) /\
  runDiagnosis [humming_or_stalled OR; humming_or_stalled AND] ∅ = ([], None).
Proof.
  split; apply all_no_gives_no_diagnosis.
  - intros sid a. unfold all_no.
    rewrite !lookup_insert_Some, lookup_empty. intuition congruence.
  - intros sid a. rewrite lookup_empty. discriminate.
Defined.

(** X12: the rules are diagnosed one by one: the results of a catalog in
    two parts are the results of the first part followed by those of
    the second. *)
Theorem diagnosis_of_joined_catalogs rules1 rules2 answers :
  fst (runDiagnosis (rules1 ++ rules2) answers) =
  fst (runDiagnosis rules1 answers) ++ fst (runDiagnosis rules2 answers).
Proof. rewrite !results_by_rule. apply flat_map_app. Qed.

Lemma collect_agree answers1 answers2 sids :
  (forall sid, In sid sids -> answers1 !! sid = answers2 !! sid) ->
  forall cfValues,
    fold_left (collect answers1) sids cfValues = fold_left (collect answers2) sids cfValues.
Proof.
  induction sids as [|sid sids IH]; intros H cfValues; [reflexivity|].
  cbn [fold_left]. unfold collect at 2 4. rewrite (H sid (or_introl eq_refl)).
  apply IH. intros sid' Hin. apply H. now right.
Qed.

(** X13: only the answers to the symptoms that the rules reference
    matter: two answer maps that agree on them get the same results and
    the same conclusion. *)
Theorem unreferenced_answers_do_not_matter rules answers1 answers2 :
  (forall rule sid,
     In rule rules -> In sid (rule_symptoms rule) -> answers1 !! sid = answers2 !! sid) ->
  runDiagnosis rules answers1 = runDiagnosis rules answers2.
Proof.
  intros H.
  assert (E : forall output,
            fold_left (diagnose answers1) rules output =
            fold_left (diagnose answers2) rules output).
  { induction rules as [|rule rules IH]; intros output; [reflexivity|].
    cbn [fold_left].
    assert (Hd : diagnose answers1 output rule = diagnose answers2 output rule).
    { unfold diagnose.
      now rewrite (collect_agree answers1 answers2 (rule_symptoms rule)
                     (fun sid Hin => H rule sid (or_introl eq_refl) Hin)). }
    rewrite Hd. apply IH. intros rule' sid Hr. apply H. now right. }
  unfold runDiagnosis. now rewrite E.
Qed.

Lemma unreferenced_answers_do_not_matter_witness :
  runDiagnosis [humming_or_stalled OR] (<[7%Z := Yes]> humming_no_stalled_yes) =
  runDiagnosis [humming_or_stalled OR] humming_no_stalled_yes.
Proof.
  apply unreferenced_answers_do_not_matter.
  intros rule sid [<- | []] [<- | [<- | []]]; reflexivity.
Defined.

(** *** The conclusion by the numbers of Minor, Moderate and Severe results *)

Definition level_eqb (a b : Level) : bool :=
  match a, b with
  | A, A | B, B | C, C => true
  | _, _ => false
  end.

Definition count_level (l : Level) (data : list DiagnosisResult) : nat :=
  length (List.filter (fun r => level_eqb (level r) l) data).

(** A Minor and a Severe result. *)
Definition minor_and_severe : list DiagnosisResult :=
  [ {| result_id := "R1"; level := A; damage := "damage"; solution := "solution";
       cfRule := 0.5 |};
    {| result_id := "R2"; level := C; damage := "damage"; solution := "solution";
       cfRule := 1 |} ].

Definition rank_sum (data : list DiagnosisResult) : nat :=
  fold_right (fun r k => (level_rank (level r) + k)%nat) 0%nat data.

(** The percent of [n] results at [k] steps stays at 40 only for [k = 0]
    and up to 70 only for [k <= n]; rounded to one decimal it lies
    between 40 and 100 and is exact at 40, 70 and 100. *)
Definition counts_check (n k : nat) : bool :=
  let p := percent_of n k in
  let r := toFixed_Number p 1 in
  Bool.eqb (p <=? 40) (k =? 0)%nat && Bool.eqb (p >? 40) (negb (k =? 0)%nat)
  && Bool.eqb (p <=? 70) (k <=? n)%nat
  && (r >=? 40) && (r <=? 100)
  && implb (k =? 0)%nat (PrimFloat.Leibniz.eqb r 40)
  && implb (k =? n)%nat (PrimFloat.Leibniz.eqb r 70)
  && implb (k =? 2 * n)%nat (PrimFloat.Leibniz.eqb r 100).

Definition counts_check_upto (count : nat) : bool :=
  forallb (fun n => forallb (counts_check n) (seq 0 (2 * n + 1))) (seq 1 count).

Lemma weight_sum_rank data :
  fold_right Z.add 0%Z (map (fun r => severity_weight (getLevelLabel (level r))) data) =
  (40 * Z.of_nat (length data) + 30 * Z.of_nat (rank_sum data))%Z.
Proof.
  induction data as [|r data IH]; cbn [length map fold_right rank_sum]; [reflexivity|].
  fold (rank_sum data). rewrite IH, Nat2Z.inj_succ, Nat2Z.inj_add.
  destruct (level r); cbn [level_rank getLevelLabel];
    change (severity_weight _) with 40%Z || change (severity_weight _) with 70%Z
    || change (severity_weight _) with 100%Z; cbn [Z.of_nat]; lia.
Qed.

Lemma counts data :
  length data = (count_level A data + count_level B data + count_level C data)%nat /\
  rank_sum data = (count_level B data + 2 * count_level C data)%nat.
Proof.
  unfold count_level. induction data as [|r data [IH1 IH2]]; [split; reflexivity|].
  cbn [length rank_sum fold_right List.filter]. fold (rank_sum data).
  destruct (level r); cbn [level_eqb level_rank length]; lia.
Qed.

Lemma counts_check_upto_spec count :
  counts_check_upto count = true ->
  forall n k, (1 <= n <= count)%nat -> (k <= 2 * n)%nat -> counts_check n k = true.
Proof.
  unfold counts_check_upto. intros H n k Hn Hk.
  rewrite forallb_forall in H. specialize (H n). rewrite forallb_forall in H.
  apply H; apply in_seq; lia.
Qed.

Lemma counts_check_100 : counts_check_upto 100 = true.
Proof. vm_cast_no_check (eq_refl true). Qed.

Lemma percent_by_rank data :
  severity_percent data = percent_of (length data) (rank_sum data).
Proof. unfold severity_percent, percent_of. cbv zeta. now rewrite weight_sum_rank. Qed.

Lemma counts_check_data data :
  (0 < length data <= 100)%nat ->
  counts_check (length data) (rank_sum data) = true.
Proof.
  intros Hlen. apply (counts_check_upto_spec 100 counts_check_100); [lia|].
  destruct (counts data). lia.
Qed.

(** X14: for up to 100 results the label of the conclusion is decided by
    the counts alone: Minor when every result is Minor, Severe when the
    Severe results outnumber the Minor ones, Moderate otherwise; and the
    percent lies between 40 and 100. *)
Theorem conclusion_by_counts data c :
  (0 < length data <= 100)%nat ->
  calculateConclusion data = Some c ->
  (label c = "Minor" <-> count_level B data = 0%nat /\ count_level C data = 0%nat) /\
  (label c = "Severe" <-> (count_level A data < count_level C data)%nat) /\
  (label c = "Moderate" <->
     (0 < count_level B data + count_level C data)%nat /\
     (count_level C data <= count_level A data)%nat) /\
  (percent c >=? 40) = true /\ (percent c <=? 100) = true.
Proof.
  intros Hlen Hc.
  assert (Hne : data <> []) by (destruct data; [simpl in Hlen; lia | discriminate]).
  destruct (label_by_percent data Hne) as (c' & Hc' & H). cbv zeta in H.
  rewrite Hc in Hc'. injection Hc' as <-.
  destruct H as (Hp & Hminor & Hmoderate & Hsevere).
  pose proof (counts_check_data data Hlen) as Hk.
  unfold counts_check in Hk. cbv zeta in Hk. rewrite <- percent_by_rank, <- Hp in Hk.
  repeat (apply andb_prop in Hk as [Hk ?]).
  repeat match goal with H : Bool.eqb _ _ = true |- _ => apply Bool.eqb_prop in H end.
  destruct (counts data) as [Hn Hr].
  rewrite Hminor, Hmoderate, Hsevere.
  repeat match goal with H : (_ ?= _) = _ |- _ => clear H end.
  match goal with
  | H1 : (_ <=? 40) = _, H2 : (_ >? 40) = _, H3 : (_ <=? 70) = _ |- _ =>
      rewrite H1, H2, H3
  end.
  rewrite negb_true_iff, !Nat.eqb_eq, Nat.eqb_neq, Nat.leb_le.
  repeat split; try assumption; lia.
Qed.

Lemma conclusion_by_counts_witness :
  label {| percent := 70.0; label := "Moderate" |} = "Moderate" <->
  (0 < count_level B minor_and_severe + count_level C minor_and_severe)%nat /\
  (count_level C minor_and_severe <= count_level A minor_and_severe)%nat.
Proof.
  exact (proj1 (proj2 (proj2 (conclusion_by_counts minor_and_severe
           {| percent := 70.0; label := "Moderate" |}
           ltac:(cbn; lia) eq_refl)))).
Defined.

Lemma uniform_rank data l :
  Forall (fun r => level r = l) data ->
  rank_sum data = (level_rank l * length data)%nat.
Proof.
  induction 1 as [|r data Hr _ IH]; cbn [rank_sum fold_right length]; [lia|].
  fold (rank_sum data). rewrite IH, Hr. lia.
Qed.

(** X15: up to 100 results that all have the same level give that level
    back: the conclusion carries the level's label and exactly its
    weight as the percent. *)
Theorem uniform_results_keep_their_level data l :
  (0 < length data <= 100)%nat ->
  Forall (fun r => level r = l) data ->
  calculateConclusion data =
  Some {| percent := of_Z (levelScore l); label := getLevelLabel l |}.
Proof.
  intros Hlen Hall.
  assert (Hne : data <> []) by (destruct data; [simpl in Hlen; lia | discriminate]).
  rewrite (calculateConclusion_percent _ Hne).
  pose proof (counts_check_data data Hlen) as Hk.
  unfold counts_check in Hk. cbv zeta in Hk. rewrite <- percent_by_rank in Hk.
  apply andb_prop in Hk as [Hk H100]. apply andb_prop in Hk as [Hk H70].
  apply andb_prop in Hk as [Hk H40]. apply andb_prop in Hk as [Hk _].
  apply andb_prop in Hk as [Hk _]. apply andb_prop in Hk as [Hk Hmoderate].
  apply andb_prop in Hk as [Hminor _].
  apply Bool.eqb_prop in Hminor, Hmoderate. rewrite Hminor, Hmoderate.
  rewrite (uniform_rank data l Hall) in *.
  destruct l; cbn [level_rank Nat.mul] in *.
  - cbn [implb Nat.eqb] in H40. apply FloatAxioms.Leibniz.eqb_spec in H40. rewrite H40.
    reflexivity.
  - rewrite Nat.add_0_r in *. rewrite Nat.eqb_refl in H70. cbn [implb] in H70.
    apply FloatAxioms.Leibniz.eqb_spec in H70. rewrite H70.
    replace (length data =? 0)%nat with false by (symmetry; apply Nat.eqb_neq; lia).
    rewrite Nat.leb_refl. reflexivity.
  - rewrite Nat.add_0_r in *.
    rewrite Nat.eqb_refl in H100. cbn [implb] in H100. apply FloatAxioms.Leibniz.eqb_spec in H100. rewrite H100.
    replace (length data + length data =? 0)%nat with false
      by (symmetry; apply Nat.eqb_neq; lia).
    replace (length data + length data <=? length data)%nat with false
      by (symmetry; apply Nat.leb_gt; lia).
    reflexivity.
Qed.

Lemma uniform_results_keep_their_level_witness :
  calculateConclusion
    [result_of (humming_or_stalled OR) 1; result_of (humming_or_stalled AND) 1;
     result_of (humming_or_stalled OR) 1] =
  Some {| percent := of_Z (levelScore B); label := getLevelLabel B |}.
Proof.
  apply uniform_results_keep_their_level; [cbn; lia | repeat constructor].
Defined.

End ExpertSystem.





(** ** The prediction endpoint ([POST /api/ml/predict]) *)

Module MlPredict.
Import JS.
Local Open Scope string_scope.
Local Open Scope list_scope.
Local Open Scope float_scope.

Record VibrationReading := {
  vibration_rms : number;
  timestamp : option number
}.

Record SensorData := {
  gridVoltage : option number;
  motorCurrent : option number;
  power : option number;
  powerFactor : option number;
  gridFrequency : option number;
  vibrationRms : option number;
  motorSurfaceTemp : option number;
  bearingTemp : option number;
  dustDensity : option number;
  vibration_peak_g : option number (* Firebase format *)
}.

Record Classification := {
  will_fail_soon : bool;
  failure_probability : number;
  confidence : string;
  threshold_minutes : number
}.

Record Regression := {
  minutes_to_failure : number;
  hours_to_failure : number;
  regression_status : string
}.

Record MLPredictionResponse := {
  classification : Classification;
  regression : Regression;
  prediction_timestamp : string;
  readings_used : number
}.

(** The parsed request body, [{ vibrationReadings, sensorData }]. *)
Record Body := {
  vibrationReadings : option (list VibrationReading);
  sensorData : option SensorData
}.

(** [await request.json()] and the destructuring of its value: the
    promise rejects (with a message when the reason is an [Error]); or the
    body is the JSON value [null], and the destructuring raises a
    [TypeError], whose message is the engine's; or it is another JSON
    value, whose two properties are read ([undefined] where it has none). *)
Inductive RequestJson :=
  | BodyRejects (message : option string)
  | BodyNull (type_error : string)
  | BodyOf (body : Body).

(** [await mlResponse.json()]: it rejects, or yields a falsy value, a
    prediction, or some other value, on which reading
    [.classification.will_fail_soon] raises a [TypeError]. *)
Inductive ResponseJson :=
  | JsonRejects (message : option string)
  | JsonFalsy
  | JsonPrediction (prediction : MLPredictionResponse)
  | JsonMisshaped (type_error : string).

(** What [fetch] does when the handler calls the predictor: the promise
    rejects (network error, or the 10 s [AbortSignal.timeout] fires), or a
    response arrives; [text] is [None] when [mlResponse.text()] rejects. *)
Inductive FetchOutcome :=
  | FetchRejects (message : option string)
  | FetchResponds (ok : bool) (status : Z) (text : option string) (json : ResponseJson).

(** Everything the handler reads from outside the request. *)
Record Environment := {
  ML_SERVICE_URL : option string;          (* process.env.ML_SERVICE_URL *)
  URL_hostname : string -> option string;  (* new URL(url).hostname, None when it throws *)
  Date_now : number;
  Date_toISOString : string;
  fetch_outcome : FetchOutcome
}.

Inductive MlServiceStatus := available | unavailable | disabled.

Record ClassificationView := {
  willFailSoon : bool;
  failureProbability : number;
  confidence_view : string;
  thresholdMinutes : number
}.

Record RegressionView := {
  minutesToFailure : number;
  hoursToFailure : number;
  status_view : string
}.

Record MlPredictionView := {
  classification_view : ClassificationView;
  regression_view : RegressionView;
  readingsUsed : number
}.

Record Prediction := {
  success : bool;
  healthScore : HealthScore.HealthScoreResult;
  mlPrediction : option MlPredictionView;
  mlServiceStatus : MlServiceStatus;
  mlServiceError : option string;
  response_timestamp : string
}.

Record Failure := {
  error : string;
  details : string;
  failure_success : bool
}.

(** The JSON the handler answers with, and its HTTP status. *)
Inductive Response :=
  | Ok200 (body : Prediction)
  | Error500 (body : Failure).

Definition isLocalhostUrl (env : Environment) (url : string) : bool :=
  match URL_hostname env url with
  | Some hostname => String.eqb hostname "localhost" || String.eqb hostname "127.0.0.1"
  | None => false
  end.

Definition canCallMlService (env : Environment) : bool :=
  match ML_SERVICE_URL env with
  | Some url => negb (String.length url =? 0)%nat && negb (isLocalhostUrl env url)
  | None => false
  end.

(** [sensorData?.field]. *)
Definition opt {A} (sensorData : option SensorData) (get : SensorData -> option A) : option A :=
  match sensorData with
  | Some sd => get sd
  | None => None
  end.

(** The object literal handed to [calculateHealthScore]. *)
Definition reading_of (sensorData : option SensorData) : HealthScore.SensorReading :=
  (* Use vibration_peak_g if available, otherwise use vibrationRms *)
  let vibrationValue :=
    or_default (or_else (opt sensorData vibration_peak_g) (opt sensorData vibrationRms)) 0 in
  {| HealthScore.gridVoltage := opt sensorData gridVoltage;
     HealthScore.motorCurrent := opt sensorData motorCurrent;
     HealthScore.power := opt sensorData power;
     HealthScore.powerFactor := opt sensorData powerFactor;
     HealthScore.gridFrequency := opt sensorData gridFrequency;
     HealthScore.vibrationRms := Some vibrationValue;
     HealthScore.vibrationPeakG := None;
     HealthScore.motorSurfaceTemp := opt sensorData motorSurfaceTemp;
     HealthScore.bearingTemp := opt sensorData bearingTemp;
     HealthScore.ambientTemp := None;
     HealthScore.dustDensity := opt sensorData dustDensity |}.

(** The placeholder prediction of the unconfigured deployment. *)
Definition synthetic_prediction (env : Environment) (sensorData : option SensorData)
    : option MLPredictionResponse :=
  if truthy_opt (or_else (opt sensorData vibration_peak_g) (opt sensorData vibrationRms))
  then
      let vibration :=
        or_default (or_else (opt sensorData vibration_peak_g) (opt sensorData vibrationRms)) 0 in
      let '(failureProbability, willFailSoon, minutesToFailure) :=
        if vibration >? 0.5 then (0.85, true, 1440)
        else if vibration >? 0.2 then (0.6, false, 10080)
        else (0.15, false, 43200) in
      Some {| classification :=
                {| will_fail_soon := willFailSoon;
                   failure_probability := failureProbability;
                   confidence := "High";
                   threshold_minutes := 60 |};
              regression :=
                {| minutes_to_failure := minutesToFailure;
                   hours_to_failure := Math_floor (minutesToFailure / 60);
                   regression_status := if willFailSoon then "Critical" else "Normal" |};
              prediction_timestamp := Date_toISOString env;
              readings_used := 1 |}
  else None.

(** The three locals [mlPrediction], [mlServiceStatus], [mlServiceError]
    after the conditional; [inr] carries the message of a [TypeError] that
    escapes to the outer [catch]. *)
Definition MlState : Type :=
  (option MLPredictionResponse + string) * MlServiceStatus * option string.

Definition ml_state (env : Environment) (sensorData : option SensorData) : MlState :=
  (* Create vibration reading from Firebase data *)
  let readings :=
    match opt sensorData vibration_peak_g with
    | Some g => if truthy g then [ {| vibration_rms := g; timestamp := Some (Date_now env) |} ]
                else []
    | None => []
    end in
  if negb (canCallMlService env) then
    (inl (synthetic_prediction env sensorData), disabled,
     Some "ML service is not configured for this deployment. Set ML_SERVICE_URL to a public URL to enable ML predictions.")
  else if (length readings <? 1)%nat then
    (inl None, unavailable,
     Some "Not enough vibration readings for ML prediction (need at least 1)")
  else
    match fetch_outcome env with
    | FetchResponds true _ _ (JsonPrediction p) => (inl (Some p), available, None)
    | FetchResponds true _ _ JsonFalsy => (inl None, available, None)
    | FetchResponds true _ _ (JsonMisshaped e) => (inr e, available, None)
    | FetchResponds true _ _ (JsonRejects message) =>
        (inl None, unavailable, Some (default "ML service unavailable" message))
    | FetchResponds false status text _ =>
        let errorText := default "" text in
        (inl None, unavailable,
         Some (if (String.length errorText =? 0)%nat
               then "ML service error: " +:+ pretty status
               else errorText))
    | FetchRejects message =>
        (inl None, unavailable, Some (default "ML service unavailable" message))
    end.

Definition view (p : MLPredictionResponse) : MlPredictionView :=
  {| classification_view :=
       {| willFailSoon := will_fail_soon (classification p);
          failureProbability := failure_probability (classification p);
          confidence_view := confidence (classification p);
          thresholdMinutes := threshold_minutes (classification p) |};
     regression_view :=
       {| minutesToFailure := minutes_to_failure (regression p);
          hoursToFailure := hours_to_failure (regression p);
          status_view := regression_status (regression p) |};
     readingsUsed := readings_used p |}.

Definition internal_error (message : option string) : Response :=
  Error500 {| error := "Internal server error";
              details := default "Unknown error" message;
              failure_success := false |}.

Definition POST (env : Environment) (request : RequestJson) : Response :=
  match request with
  | BodyRejects message => internal_error message
  | BodyNull type_error => internal_error (Some type_error)
  | BodyOf body =>
      (* Calculate formula-based health score from sensor data *)
      let healthResult := HealthScore.calculateHealthScore (reading_of (sensorData body)) in
      match ml_state env (sensorData body) with
      | ((inl prediction), status, err) =>
          Ok200 {| success := true;
                   healthScore :=
                     {| HealthScore.score := HealthScore.score healthResult;
                        HealthScore.category := HealthScore.category healthResult;
                        HealthScore.factors := HealthScore.factors healthResult |};
                   mlPrediction := option_map view prediction;
                   mlServiceStatus := status;
                   mlServiceError := err;
                   response_timestamp := Date_toISOString env |}
      | (inr type_error, _, _) => internal_error (Some type_error)
      end
  end.

(** *** Degraded mode *)





(** The snapshot with another [vibrationRms]. *)
Definition with_vibrationRms (x : option number) (sd : SensorData) : SensorData :=
  {| gridVoltage := gridVoltage sd; motorCurrent := motorCurrent sd; power := power sd;
     powerFactor := powerFactor sd; gridFrequency := gridFrequency sd;
     vibrationRms := x; motorSurfaceTemp := motorSurfaceTemp sd;
     bearingTemp := bearingTemp sd; dustDensity := dustDensity sd;
     vibration_peak_g := vibration_peak_g sd |}.

(** [sensorData?.vibration_peak_g || sensorData?.vibrationRms || 0]. *)
Definition vibration_of (sensorData : option SensorData) : number :=
  or_default (or_else (opt sensorData vibration_peak_g) (opt sensorData vibrationRms)) 0.


Definition unconfigured : Environment :=
  {| ML_SERVICE_URL := None;
     URL_hostname := fun _ => None;
     Date_now := 1700000000000;
     Date_toISOString := "2023-11-14T22:13:20.000Z";
     fetch_outcome := FetchRejects None |}.

Definition timing_out : Environment :=
  {| ML_SERVICE_URL := Some "https://ml.example.org";
     URL_hostname := fun _ => Some "ml.example.org";
     Date_now := 1700000000000;
     Date_toISOString := "2023-11-14T22:13:20.000Z";
     fetch_outcome := FetchRejects (Some "The operation was aborted due to timeout") |}.

(** A snapshot with a calm [vibrationRms] and a large [vibration_peak_g]. *)
Definition calm_rms_high_peak : SensorData :=
  {| gridVoltage := None; motorCurrent := None; power := None; powerFactor := None;
     gridFrequency := None; vibrationRms := Some 1.0; motorSurfaceTemp := None;
     bearingTemp := None; dustDensity := None; vibration_peak_g := Some 5.0 |}.

Definition body_of (sd : SensorData) : Body :=
  {| vibrationReadings := None; sensorData := Some sd |}.


Lemma health_eta h :
  {| HealthScore.score := HealthScore.score h;
     HealthScore.category := HealthScore.category h;
     HealthScore.factors := HealthScore.factors h |} = h.
Proof. now destruct h. Qed.

Lemma truthy_or_default o : truthy (or_default o 0) = truthy_opt o.
Proof.
  destruct o as [x|]; cbn [or_default truthy_opt]; [|reflexivity].
  destruct (truthy x) eqn:Hx; [exact Hx | reflexivity].
Qed.

Lemma truthy_or_else a b : truthy_opt (or_else a b) = truthy_opt a || truthy_opt b.
Proof. unfold or_else. now destruct (truthy_opt a) eqn:Ha; [rewrite Ha|]. Qed.

(** Without a truthy [vibration_peak_g] no reading is built. *)
Lemma ml_state_without_peak env sensorData :
  truthy_opt (opt sensorData vibration_peak_g) = false ->
  canCallMlService env = true ->
  ml_state env sensorData =
  (inl None, unavailable,
   Some "Not enough vibration readings for ML prediction (need at least 1)").
Proof.
  intros Hpeak Hcan. unfold ml_state. rewrite Hcan. cbn [negb].
  destruct (opt sensorData vibration_peak_g) as [g|]; [|reflexivity].
  cbn [truthy_opt] in Hpeak. now rewrite Hpeak.
Qed.

Lemma ml_state_with_peak env sensorData :
  truthy_opt (opt sensorData vibration_peak_g) = true ->
  canCallMlService env = true ->
  ml_state env sensorData =
  match fetch_outcome env with
  | FetchResponds true _ _ (JsonPrediction p) => (inl (Some p), available, None)
  | FetchResponds true _ _ JsonFalsy => (inl None, available, None)
  | FetchResponds true _ _ (JsonMisshaped e) => (inr e, available, None)
  | FetchResponds true _ _ (JsonRejects message) =>
      (inl None, unavailable, Some (default "ML service unavailable" message))
  | FetchResponds false status text _ =>
      let errorText := default "" text in
      (inl None, unavailable,
       Some (if (String.length errorText =? 0)%nat
             then "ML service error: " +:+ pretty status
             else errorText))
  | FetchRejects message =>
      (inl None, unavailable, Some (default "ML service unavailable" message))
  end.
Proof.
  intros Hpeak Hcan. unfold ml_state. rewrite Hcan. cbn [negb].
  destruct (opt sensorData vibration_peak_g) as [g|]; [|discriminate Hpeak].
  cbn [truthy_opt] in Hpeak. now rewrite Hpeak.
Qed.

Lemma ml_state_disabled env sensorData :
  canCallMlService env = false ->
  ml_state env sensorData =
  (inl (synthetic_prediction env sensorData), disabled,
   Some "ML service is not configured for this deployment. Set ML_SERVICE_URL to a public URL to enable ML predictions.").
Proof. intros Hcan. unfold ml_state. now rewrite Hcan. Qed.

(** A returned factor named vibrationRms comes from the first check: it
    carries the value of [vibrationRms], which is beyond the warning limit. *)
Lemma pushed_vibrationRms reading f :
  In f (HealthScore.pushed_factors reading) ->
  HealthScore.parameter f = "vibrationRms" ->
  exists v, HealthScore.vibrationRms reading = Some v /\ (v >? 2.8) = true /\
            HealthScore.value f = v.
Proof.
  unfold HealthScore.pushed_factors. rewrite !in_app_iff.
  intros [H | H] Hname.
  - unfold HealthScore.check_factor, HealthScore.severity in H.
    destruct (HealthScore.vibrationRms reading) as [v|]; [|destruct H].
    exists v. split; [reflexivity|].
    cbn [HealthScore.isLower HealthScore.vibrationRms_thresholds
         HealthScore.critical HealthScore.warning] in H.
    destruct (v >? 4.5) eqn:Hc.
    + destruct H as [<- | []].
      split; [apply (leb_ltb_trans 2.8 4.5 v); [reflexivity | exact Hc] | reflexivity].
    + destruct (v >? 2.8); [|destruct H].
      destruct H as [<- | []]. split; reflexivity.
  - exfalso. unfold HealthScore.check_factor in H.
    repeat match goal with
    | H : _ \/ _ |- _ => destruct H as [H | H]
    | H : In _ (match ?o with Some _ => _ | None => _ end) |- _ => destruct o
    | H : In _ (match ?l with HealthScore.lvl_normal => _ | _ => _ end) |- _ => destruct l
    | H : In _ [] |- _ => destruct H
    | H : In _ [_] |- _ => destruct H as [<- | []]; discriminate Hname
    end.
Qed.















(** ** More on the endpoint *)

(** The environment with another outcome of the call to the predictor. *)
Definition with_fetch_outcome (outcome : FetchOutcome) (env : Environment) : Environment :=
  {| ML_SERVICE_URL := ML_SERVICE_URL env;
     URL_hostname := URL_hostname env;
     Date_now := Date_now env;
     Date_toISOString := Date_toISOString env;
     fetch_outcome := outcome |}.

(** The environment with another value of [process.env.ML_SERVICE_URL]. *)
Definition with_ML_SERVICE_URL (url : option string) (env : Environment) : Environment :=
  {| ML_SERVICE_URL := url;
     URL_hostname := URL_hostname env;
     Date_now := Date_now env;
     Date_toISOString := Date_toISOString env;
     fetch_outcome := fetch_outcome env |}.

(** A deployment whose [ML_SERVICE_URL] points at the machine itself. *)
Definition on_localhost : Environment :=
  {| ML_SERVICE_URL := Some "http://localhost:8000";
     URL_hostname := fun _ => Some "localhost";
     Date_now := 1700000000000;
     Date_toISOString := "2023-11-14T22:13:20.000Z";
     fetch_outcome := FetchRejects None |}.

(** A body that carries [vibrationReadings] as well. *)
Definition with_readings : Body :=
  {| vibrationReadings := Some [ {| vibration_rms := 9.5; timestamp := None |} ];
     sensorData := Some calm_rms_high_peak |}.

Lemma canCallMlService_with_fetch_outcome outcome env :
  canCallMlService (with_fetch_outcome outcome env) = canCallMlService env.
Proof. reflexivity. Qed.

(** X16: in every 200 answer the three ML fields agree: the status is
    available exactly when no error text is given, disabled exactly when
    the deployment cannot call the predictor, an unavailable predictor
    comes with no prediction, and available means that the predictor was
    called for a truthy [vibration_peak_g] and answered with an ok
    response. *)
Theorem ml_status_error_and_prediction_agree env body r :
  POST env (BodyOf body) = Ok200 r ->
  success r = true /\
  (mlServiceStatus r = available <-> mlServiceError r = None) /\
  (mlServiceStatus r = disabled <-> canCallMlService env = false) /\
  (mlServiceStatus r = unavailable -> mlPrediction r = None) /\
  (mlServiceStatus r = available ->
     canCallMlService env = true /\
     truthy_opt (opt (sensorData body) vibration_peak_g) = true /\
     exists status text json, fetch_outcome env = FetchResponds true status text json).
Proof.
  unfold POST.
  generalize (HealthScore.calculateHealthScore (reading_of (sensorData body))) as h.
  intros h.
  destruct (canCallMlService env) eqn:Hcan;
    [destruct (truthy_opt (opt (sensorData body) vibration_peak_g)) eqn:Hpeak|].
  - rewrite (ml_state_with_peak _ _ Hpeak Hcan).
    destruct (fetch_outcome env) as [m | [|] st tx [m | | p | e]];
      cbv zeta; unfold internal_error; intros [= <-];
      cbn [success mlServiceStatus mlServiceError mlPrediction option_map];
      repeat split; intros; try discriminate; try reflexivity; eauto.
  - rewrite (ml_state_without_peak _ _ Hpeak Hcan). intros [= <-].
    cbn [success mlServiceStatus mlServiceError mlPrediction option_map].
    repeat split; intros; try discriminate; reflexivity.
  - rewrite (ml_state_disabled _ _ Hcan). intros [= <-].
    cbn [success mlServiceStatus mlServiceError mlPrediction option_map].
    repeat split; intros; try discriminate; reflexivity.
Qed.

Lemma ml_status_error_and_prediction_agree_witness :
  exists r,
    POST timing_out (BodyOf (body_of calm_rms_high_peak)) = Ok200 r /\
    (mlServiceStatus r = unavailable -> mlPrediction r = None).
Proof.
  eexists. split; [reflexivity|].
  exact (proj1 (proj2 (proj2 (proj2
    (ml_status_error_and_prediction_agree timing_out (body_of calm_rms_high_peak) _
       eq_refl))))).
Defined.

(** X17: the predictor is consulted only by a deployment that can call it
    and only for a truthy [vibration_peak_g]: otherwise the answer is the
    same whatever the call to the predictor would have given. *)
Theorem predictor_consulted_only_with_peak env body outcome :
  canCallMlService env = false \/
  truthy_opt (opt (sensorData body) vibration_peak_g) = false ->
  POST (with_fetch_outcome outcome env) (BodyOf body) = POST env (BodyOf body).
Proof.
  intros H. unfold POST.
  destruct (canCallMlService env) eqn:Hcan.
  - destruct H as [H | Hpeak]; [discriminate H|].
    now rewrite !ml_state_without_peak.
  - now rewrite !ml_state_disabled.
Qed.

Lemma predictor_consulted_only_with_peak_witness :
  POST (with_fetch_outcome (FetchResponds true 200 None JsonFalsy) unconfigured)
       (BodyOf (body_of calm_rms_high_peak)) =
  POST unconfigured (BodyOf (body_of calm_rms_high_peak)).
Proof.
  apply predictor_consulted_only_with_peak. left. reflexivity.
Defined.

(** X18: the answer to a body that is not null depends on the body
    through [sensorData] alone ([vibrationReadings] is never read), and its
    health score depends on nothing else: not on the deployment, the clock
    or the predictor. *)
Theorem answer_depends_on_sensorData_only body1 body2 :
  sensorData body1 = sensorData body2 ->
  (forall env, POST env (BodyOf body1) = POST env (BodyOf body2)) /\
  (forall env1 env2 r1 r2,
     POST env1 (BodyOf body1) = Ok200 r1 -> POST env2 (BodyOf body2) = Ok200 r2 ->
     healthScore r1 = healthScore r2).
Proof.
  intros Hsd. split.
  - intros env. unfold POST. now rewrite Hsd.
  - intros env1 env2 r1 r2. unfold POST. rewrite Hsd.
    generalize (HealthScore.calculateHealthScore (reading_of (sensorData body2))) as h.
    intros h.
    destruct (ml_state env1 _) as [[[p1 | e1] st1] err1];
      unfold internal_error; intros [= <-].
    destruct (ml_state env2 _) as [[[p2 | e2] st2] err2]; intros [= <-].
    reflexivity.
Qed.

Lemma answer_depends_on_sensorData_only_witness :
  POST timing_out (BodyOf with_readings) =
  POST timing_out (BodyOf (body_of calm_rms_high_peak)).
Proof.
  exact (proj1 (answer_depends_on_sensorData_only with_readings
                  (body_of calm_rms_high_peak) eq_refl) timing_out).
Defined.

(** X19: a truthy [vibration_peak_g] hides [vibrationRms]: the answer is
    the same whatever [vibrationRms] the snapshot carries. *)
Theorem peak_g_hides_vibrationRms env readings sd x :
  truthy_opt (vibration_peak_g sd) = true ->
  POST env (BodyOf {| vibrationReadings := readings;
                      sensorData := Some (with_vibrationRms x sd) |}) =
  POST env (BodyOf {| vibrationReadings := readings; sensorData := Some sd |}).
Proof.
  intros Hpeak. unfold POST. cbn [sensorData].
  assert (Hreading : reading_of (Some (with_vibrationRms x sd)) = reading_of (Some sd)).
  { unfold reading_of, or_else. cbn [opt with_vibrationRms vibration_peak_g vibrationRms
      gridVoltage motorCurrent power powerFactor gridFrequency motorSurfaceTemp
      bearingTemp dustDensity]. now rewrite Hpeak. }
  assert (Hstate : ml_state env (Some (with_vibrationRms x sd)) = ml_state env (Some sd)).
  { unfold ml_state, synthetic_prediction, or_else.
    cbn [opt with_vibrationRms vibration_peak_g vibrationRms]. now rewrite Hpeak. }
  now rewrite Hreading, Hstate.
Qed.

Lemma peak_g_hides_vibrationRms_witness :
  POST unconfigured
    (BodyOf {| vibrationReadings := None;
               sensorData := Some (with_vibrationRms (Some 9.0) calm_rms_high_peak) |}) =
  POST unconfigured (BodyOf (body_of calm_rms_high_peak)).
Proof.
  apply (peak_g_hides_vibrationRms unconfigured None calm_rms_high_peak). reflexivity.
Defined.

(** X20: an [ML_SERVICE_URL] that is empty, or whose host is localhost or
    127.0.0.1, counts as no URL at all: the predictor cannot be called and
    every request is answered as if the variable were unset. *)
Theorem localhost_url_counts_as_unset env url request :
  ML_SERVICE_URL env = Some url ->
  url = "" \/ URL_hostname env url = Some "localhost" \/
  URL_hostname env url = Some "127.0.0.1" ->
  canCallMlService env = false /\
  POST env request = POST (with_ML_SERVICE_URL None env) request.
Proof.
  intros Hurl Hhost.
  assert (Hcan : canCallMlService env = false).
  { unfold canCallMlService, isLocalhostUrl. rewrite Hurl.
    destruct Hhost as [-> | [-> | ->]]; [reflexivity | |];
      cbn; now rewrite andb_false_r. }
  split; [exact Hcan|].
  destruct request as [m | e | body]; [reflexivity | reflexivity |].
  unfold POST. now rewrite !ml_state_disabled.
Qed.

Lemma localhost_url_counts_as_unset_witness :
  canCallMlService on_localhost = false /\
  POST on_localhost (BodyOf (body_of calm_rms_high_peak)) =
  POST (with_ML_SERVICE_URL None on_localhost) (BodyOf (body_of calm_rms_high_peak)).
Proof.
  apply (localhost_url_counts_as_unset on_localhost "http://localhost:8000");
    [reflexivity | right; left; reflexivity].
Defined.


(** *** The answer of a deployment without predictor *)

Lemma synthetic_prediction_cases env sensorData :
  synthetic_prediction env sensorData =
  let v := vibration_of sensorData in
  if truthy v then
    Some {| classification :=
              {| will_fail_soon := v >? 0.5;
                 failure_probability :=
                   if v >? 0.5 then 0.85 else if v >? 0.2 then 0.6 else 0.15;
                 confidence := "High";
                 threshold_minutes := 60 |};
            regression :=
              {| minutes_to_failure :=
                   if v >? 0.5 then 1440 else if v >? 0.2 then 10080 else 43200;
                 hours_to_failure :=
                   if v >? 0.5 then 24 else if v >? 0.2 then 168 else 720;
                 regression_status := if v >? 0.5 then "Critical" else "Normal" |};
            prediction_timestamp := Date_toISOString env;
            readings_used := 1 |}
  else None.
Proof.
  cbv zeta. unfold synthetic_prediction, vibration_of. rewrite truthy_or_default.
  destruct (truthy_opt _); [|reflexivity].
  set (v := or_default _ 0).
  destruct (v >? 0.5); [reflexivity|]. destruct (v >? 0.2); reflexivity.
Qed.



(** X23: the two parts of the answer of a deployment without predictor
    agree on vibration: when the health score lists a vibrationRms factor,
    the prediction is present and announces a failure with the status
    Critical. *)
Theorem vibration_factor_comes_with_failure_alarm env body r :
  canCallMlService env = false ->
  POST env (BodyOf body) = Ok200 r ->
  In "vibrationRms" (map HealthScore.parameter (HealthScore.factors (healthScore r))) ->
  exists p,
    mlPrediction r = Some p /\
    willFailSoon (classification_view p) = true /\
    status_view (regression_view p) = "Critical".
Proof.
  intros Hcan. unfold POST. rewrite (ml_state_disabled _ _ Hcan).
  remember (HealthScore.calculateHealthScore (reading_of (sensorData body))) as h eqn:Hh.
  intros [= <-]. cbn [healthScore mlPrediction]. rewrite health_eta. subst h.
  rewrite in_map_iff. intros (f & Hname & Hf).
  rewrite HealthScore.factors_sorted_pushed in Hf.
  apply HealthScore.Array_sort_In in Hf.
  destruct (pushed_vibrationRms _ f Hf Hname) as (v & Hv & Hgt & _).
  cbn [reading_of HealthScore.vibrationRms] in Hv. injection Hv as Hv.
  fold (vibration_of (sensorData body)) in Hv.
  rewrite synthetic_prediction_cases. cbv zeta. rewrite Hv.
  assert (Htruthy : truthy v = true).
  { destruct (truthy v) eqn:Hx; [reflexivity|].
    rewrite (falsy_not_gt v 2.8 Hx eq_refl) in Hgt. discriminate Hgt. }
  assert (Hhalf : (v >? 0.5) = true)
    by (apply (leb_ltb_trans 0.5 2.8 v); [reflexivity | exact Hgt]).
  rewrite Htruthy. cbn [option_map]. eexists. split; [reflexivity|].
  unfold view. cbn. rewrite Hhalf. split; reflexivity.
Qed.

Lemma vibration_factor_comes_with_failure_alarm_witness :
  exists r p,
    POST unconfigured (BodyOf (body_of calm_rms_high_peak)) = Ok200 r /\
    mlPrediction r = Some p /\
    willFailSoon (classification_view p) = true.
Proof.
  eexists.
  edestruct (vibration_factor_comes_with_failure_alarm unconfigured
               (body_of calm_rms_high_peak) _ eq_refl eq_refl)
    as (p & Hp & Hw & _).
  - vm_compute. left. reflexivity.
  - exists p. split; [reflexivity | split; [exact Hp | exact Hw]].
Defined.

End MlPredict.
